(** * A shallow embedding of the portfolio page's presentation pipeline

    The development follows the TypeScript sources:

    - [src/utils/dataLoader.ts]   : [DataLoader.loadMasterData], [DataLoader.loadTimeline]
    - [App.tsx]                   : [App.handleScroll]
    - [components/HeroSection]    : the counter animation and [HeroSection.formatNumber]
    - [components/*Section]       : the click handlers of the three sections

    JavaScript values are modelled by [JsVal]; plain objects are finite maps
    from property names to values.  Numbers that come from the data files are
    integers.  The arithmetic of the counter animation is given twice:
    [HeroSection] computes quotients and products exactly in [Q], which is
    enough for what rounding cannot change (the number of frames, the bounds
    and the final values); [HeroSection64] rounds every quotient and product
    to the nearest double with [Binary64.round], as the language does, and is
    the one to use for the value of a single frame.  The scroll position of
    [App.handleScroll] is rounded in the same way.  Infinities, [NaN] and
    the sign of zero are not modelled. *)

From Stdlib Require Import ZArith QArith Qround Qminmax Qabs Qpower.
From Stdlib Require Import Lia Lqa List Sorted.
From Stdlib Require Import Ascii String DecimalString.
From stdpp Require Import base option list gmap strings.

Open Scope Z_scope.

(* ================================================================== *)
(** * JavaScript values *)
(* ================================================================== *)

#[warnings="-register-all"]
Inductive JsVal : Type :=
  | JUndef
  | JNull
  | JBool (b : bool)
  | JNum (n : Z)
  | JStr (s : string)
  | JArr (elems : list JsVal)
  | JObj (props : gmap string JsVal).

(** The exceptions that the modelled code can raise.  [TypeError] comes from
    the language itself (reading a property of [undefined] or [null], calling
    something that is not a function); the other two come from the parsers. *)
Inductive Exn : Type :=
  | TypeError
  | SyntaxError
  | YAMLException.

(** Completion of an expression: a value or a thrown exception. *)
Inductive Res (A : Type) : Type :=
  | Ok (a : A)
  | Throw (e : Exn).
Arguments Ok {A} a.
Arguments Throw {A} e.

#[global] Instance Res_ret : MRet Res := fun _ a => Ok a.
#[global] Instance Res_bind : MBind Res := fun _ _ f r =>
  match r with
  | Ok a => f a
  | Throw e => Throw e
  end.
#[global] Instance Res_fmap : FMap Res := fun _ _ f r =>
  match r with
  | Ok a => Ok (f a)
  | Throw e => Throw e
  end.

Definition is_ok {A} (r : Res A) : bool :=
  match r with Ok _ => true | Throw _ => false end.

(** [v === undefined || v === null] *)
Definition nullish (v : JsVal) : bool :=
  match v with
  | JUndef | JNull => true
  | _ => false
  end.

(** ToBoolean. *)
Definition truthy (v : JsVal) : bool :=
  match v with
  | JUndef | JNull => false
  | JBool b => b
  | JNum n => negb (n =? 0)
  | JStr s => negb (String.eqb s "")
  | JArr _ | JObj _ => true
  end.

(** The property read [v.k], for the data properties the program reads (none
    of them is an array index, [length], or the name of an inherited method).
    Reading from [undefined] or [null] throws; a plain object yields the
    stored value or [undefined]; every other value has no such property. *)
Definition get (v : JsVal) (k : string) : Res JsVal :=
  match v with
  | JUndef | JNull => Throw TypeError
  | JObj props => Ok (default JUndef (props !! k))
  | _ => Ok JUndef
  end.

(** The optional read [v?.k]. *)
Definition opt_get (v : JsVal) (k : string) : Res JsVal :=
  if nullish v then Ok JUndef else get v k.

(** A member chain [v.k1.k2...kn]. *)
Fixpoint path (v : JsVal) (ks : list string) : Res JsVal :=
  match ks with
  | [] => Ok v
  | k :: ks' => v' ← get v k; path v' ks'
  end.

(** [a || b], with [b] evaluated only when [a] is falsy. *)
Definition js_or (a : JsVal) (b : Res JsVal) : Res JsVal :=
  if truthy a then Ok a else b.

(** An object literal [{ k1: e1, ..., kn: en }]: the initialisers run in
    order, the first exception aborts the literal, a repeated key keeps the
    last value. *)
Fixpoint object_props (acc : gmap string JsVal) (inits : list (string * Res JsVal))
  : Res (gmap string JsVal) :=
  match inits with
  | [] => Ok acc
  | (k, e) :: inits' => v ← e; object_props (<[k := v]> acc) inits'
  end.

Definition object_literal (inits : list (string * Res JsVal)) : Res JsVal :=
  JObj <$> object_props ∅ inits.

(** An object value written down directly: the properties in the order
    given, a repeated key keeping the last value. *)
Definition props (fields : list (string * JsVal)) : gmap string JsVal :=
  foldl (fun acc '(k, v) => <[k := v]> acc) ∅ fields.

Definition obj (fields : list (string * JsVal)) : JsVal := JObj (props fields).

(** The pure reading of a property that exists or not: [v.k] when [v] is
    neither [undefined] nor [null]. *)
Definition field (v : JsVal) (k : string) : JsVal :=
  match v with
  | JObj m => default JUndef (m !! k)
  | _ => JUndef
  end.

(** [Array.prototype.map] with a callback that may throw. *)
Fixpoint map_res {A B} (f : A -> Res B) (l : list A) : Res (list B) :=
  match l with
  | [] => Ok []
  | x :: l' => y ← f x; ys ← map_res f l'; Ok (y :: ys)
  end.

(** The call [v.map(f)]: only an array has the method. *)
Definition Array_map (f : JsVal -> Res JsVal) (v : JsVal) : Res JsVal :=
  match v with
  | JArr elems => JArr <$> map_res f elems
  | _ => Throw TypeError
  end.

(** ** Statements with effects

    The only effect of the modelled code on its environment is writing to
    the console.  A statement transforms the world and completes with a value
    or an exception. *)

Record World : Type := { console : list (list JsVal) }.

Definition Js (A : Type) : Type := World -> Res A * World.

#[global] Instance Js_ret : MRet Js := fun _ a w => (Ok a, w).
#[global] Instance Js_bind : MBind Js := fun _ _ f c w =>
  match c w with
  | (Ok a, w') => f a w'
  | (Throw e, w') => (Throw e, w')
  end.

(** An expression without effects, used as a statement. *)
Definition lift {A} (r : Res A) : Js A := fun w => (r, w).

(** [console.log(...args)] *)
Definition console_log (args : list JsVal) : Js unit :=
  fun w => (Ok tt, {| console := console w ++ [args] |}).

(* ================================================================== *)
(** * Numbers of the language *)
(* ================================================================== *)

(** Rounding of a rational to the nearest IEEE 754 binary64 number, ties to
    even: what every arithmetic operation of the language does to its exact
    result.  The rounding is given for [|x| < 2^1024]; beyond, the language
    yields an infinity. *)
Module Binary64.

(** [2^e], for an exponent of either sign. *)
Definition pow2 (e : Z) : Q := (2 ^ e)%Q.

(** The binary order of magnitude of a positive rational: the [l] with
    [2^l <= x < 2^(l+1)]. *)
Definition ilog2 (x : Q) : Z :=
  let l := Z.log2 (Qnum x) - Z.log2 (Z.pos (Qden x)) in
  if Qle_bool (pow2 l) x then l else l - 1.

(** The exponent of the last place of the double nearest to a positive
    [x]: 53 significant bits, and never below the subnormal spacing. *)
Definition exponent (x : Q) : Z := Z.max (ilog2 x - 52) (-1074).

(** The integer nearest to [s], the even one when two are equally near. *)
Definition rne (s : Q) : Z :=
  let f := Qfloor s in
  match (s - inject_Z f ?= 1 # 2)%Q with
  | Lt => f
  | Gt => f + 1
  | Eq => if Z.even f then f else f + 1
  end.

(** Rounding of a positive rational. *)
Definition round_pos (x : Q) : Q :=
  let e := exponent x in
  (inject_Z (rne (x / pow2 e)) * pow2 e)%Q.

(** The double nearest to [x], ties to even. *)
Definition round (x : Q) : Q :=
  match (x ?= 0)%Q with
  | Eq => 0%Q
  | Gt => round_pos x
  | Lt => (- round_pos (- x))%Q
  end.

(** The value of a finite double. *)
Definition is_double (x : Q) : Prop :=
  (round x == x)%Q /\ (Qabs x < pow2 1024)%Q.

End Binary64.

(* ================================================================== *)
(** * src/utils/dataLoader.ts *)
(* ================================================================== *)

Module DataLoader.

Section Timeline.

(** [JSON.parse], a service of the host. *)
Variable JSON_parse : string -> Res JsVal.

(** The arrow function passed to [map] in [loadTimeline]. *)
Definition loadTimeline_item (item : JsVal) : Res JsVal :=
  object_literal
  [ ("period", get item "period");
    ("event", get item "event");
    ("achievements",
      a ← get item "achievements";
      js_or a (s ← get item "state";
               if truthy s
               then s' ← get item "state"; Ok (JArr [s'])
               else Ok (JArr []))) ].

Definition loadTimeline (timelineJson : string) : Res JsVal :=
  timelineData ← JSON_parse timelineJson;
  career_timeline ← get timelineData "career_timeline";
  Array_map loadTimeline_item career_timeline.

End Timeline.

Section MasterData.

(** [yaml.load] of js-yaml, a library outside the repository. *)
Variable yaml_load : string -> Res JsVal.

(** The object literal returned by [loadMasterData]. *)
Definition view_model (yamlData : JsVal) : Res JsVal :=
  object_literal
  [ ("career_summary", object_literal
      [ ("current_role", path yamlData ["career_summary"; "current_role"]);
        ("company", path yamlData ["career_summary"; "company"]);
        ("duration", path yamlData ["career_summary"; "duration"]);
        ("location", path yamlData ["career_summary"; "location"]);
        ("elevator_pitch", path yamlData ["career_summary"; "elevator_pitch"]) ]);
    ("platform_transformation", object_literal
      [ ("before", object_literal
          [ ("clusters", path yamlData ["platform_transformation"; "before"; "clusters"]);
            ("deployment_method",
              path yamlData ["platform_transformation"; "before"; "deployment_method"]);
            ("environment_creation_time",
              path yamlData ["platform_transformation"; "before"; "environment_creation_time"]);
            ("aws_accounts",
              path yamlData ["platform_transformation"; "before"; "aws_accounts"]) ]);
        ("after", object_literal
          [ ("clusters", path yamlData ["platform_transformation"; "after"; "clusters"]);
            ("deployment_method",
              path yamlData ["platform_transformation"; "after"; "deployment_method"]);
            ("environment_creation_time",
              path yamlData ["platform_transformation"; "after"; "environment_creation_time"]);
            ("aws_accounts",
              path yamlData ["platform_transformation"; "after"; "aws_accounts"]);
            ("peak_clusters",
              path yamlData ["platform_transformation"; "after"; "peak_clusters"]);
            ("peak_accounts",
              path yamlData ["platform_transformation"; "after"; "peak_accounts"]) ]) ]);
    ("technical_achievements", object_literal
      [ ("b2b_cli", object_literal
          [ ("description", path yamlData ["technical_achievements"; "b2b_cli"; "description"]);
            ("lines_of_code",
              path yamlData ["technical_achievements"; "b2b_cli"; "lines_of_code"]);
            ("language", path yamlData ["technical_achievements"; "b2b_cli"; "language"]);
            ("framework", path yamlData ["technical_achievements"; "b2b_cli"; "framework"]);
            ("key_features",
              path yamlData ["technical_achievements"; "b2b_cli"; "key_features"]) ]);
        ("infrastructure_architecture", object_literal
          [ ("codename",
              path yamlData ["technical_achievements"; "infrastructure_architecture"; "codename"]);
            ("design_pattern",
              path yamlData
                ["technical_achievements"; "infrastructure_architecture"; "design_pattern"]);
            ("problem_solved",
              path yamlData
                ["technical_achievements"; "infrastructure_architecture"; "problem_solved"]);
            ("key_innovations",
              path yamlData
                ["technical_achievements"; "infrastructure_architecture"; "key_innovations"]) ]);
        ("self_healing_system", object_literal
          [ ("name", path yamlData ["self_healing_system"; "name"]);
            ("total_fixers", path yamlData ["self_healing_system"; "total_fixers"]);
            ("configuration", path yamlData ["self_healing_system"; "configuration"]) ]) ]);
    ("metrics_and_impact", object_literal
      [ ("scale", object_literal
          [ ("clusters", path yamlData ["platform_transformation"; "after"; "peak_clusters"]);
            ("aws_accounts",
              path yamlData ["platform_transformation"; "after"; "peak_accounts"]);
            ("developers_supported",
              path yamlData ["platform_transformation"; "scale"; "developers_supported"]) ]);
        ("efficiency", object_literal
          [ ("environment_creation",
              path yamlData
                ["technical_achievements"; "metrics_and_impact"; "efficiency";
                 "environment_creation"]);
            ("deployment_process",
              path yamlData
                ["technical_achievements"; "metrics_and_impact"; "efficiency";
                 "deployment_process"]);
            ("platform_engineer_productivity",
              path yamlData
                ["technical_achievements"; "metrics_and_impact"; "efficiency";
                 "platform_engineer_productivity"]) ]);
        ("reliability", object_literal
          [ ("self_healing_patterns",
              path yamlData ["self_healing_system"; "total_fixers"]) ]) ]) ].

Definition loadMasterData (masterDataYaml : string) : Js JsVal :=
  yamlData ← lift (yaml_load masterDataYaml);
  loc ← lift (ta ← get yamlData "technical_achievements";
            cli ← opt_get ta "b2b_cli";
            opt_get cli "lines_of_code");
  _ ← console_log [JStr "Lines of code from YAML:"; loc];
  peak ← lift (pt ← get yamlData "platform_transformation";
             after ← opt_get pt "after";
             opt_get after "peak_clusters");
  _ ← console_log [JStr "Peak clusters:"; peak];
  lift (view_model yamlData).

End MasterData.

End DataLoader.

(* ================================================================== *)
(** * App.tsx: the scroll coordinator *)
(* ================================================================== *)

Module App.

(** What [handleScroll] reads of the page: the elements that carry an id,
    in document order, each with its [offsetTop]; and the scroll position
    and height of the window. *)
Record Element : Type := { id : string; offsetTop : Z }.

Abbreviation Document := (list Element).

Record Window : Type := { scrollY : Q; innerHeight : Q }.

(** [document.getElementById]: the first element in document order. *)
Definition getElementById (document : Document) (name : string) : option Element :=
  List.find (fun e => String.eqb (id e) name) document.

(** The array literal of [handleScroll]. *)
Definition sections : list string :=
  ["hero"; "timeline"; "metrics"; "architecture"; "contact"].

(** The children of [<main>], in the order [App] renders them; every
    section component gives its [<section>] the id listed here. *)
Definition main_children : list string :=
  ["hero"; "metrics"; "timeline"; "architecture"; "contact"].

(** The page with the five sections laid out at the given offsets. *)
Definition render (offsets : list Z) : Document :=
  zip_with Build_Element main_children offsets.

(** [section && section.offsetTop <= scrollPosition] *)
Definition reached (scrollPosition : Q) (section : option Element) : bool :=
  match section with
  | Some e => Qle_bool (inject_Z (offsetTop e)) scrollPosition
  | None => false
  end.

(** The loop [for (let i = sections.length - 1; i >= 0; i--)]; the
    argument [n] is [i + 1].  The result is the new [activeSection]:
    the loop sets it and breaks at the first match, and leaves it as it
    was when nothing matches. *)
Fixpoint handleScroll_loop (document : Document) (scrollPosition : Q)
    (n : nat) (activeSection : string) : string :=
  match n with
  | O => activeSection
  | S i =>
      match sections !! i with
      | Some name =>
          if reached scrollPosition (getElementById document name)
          then name
          else handleScroll_loop document scrollPosition i activeSection
      | None => handleScroll_loop document scrollPosition i activeSection
      end
  end.

(** [window.scrollY + window.innerHeight / 3], the quotient and the sum
    each rounded to a double. *)
Definition scrollPosition (window : Window) : Q :=
  Binary64.round (scrollY window + Binary64.round (innerHeight window / 3)).

Definition handleScroll (document : Document) (window : Window)
    (activeSection : string) : string :=
  handleScroll_loop document (scrollPosition window) (length sections) activeSection.

(** The rule of the specification, in its words: among the sections whose
    top boundary is at or above the threshold, the last one in document
    order. *)
Definition qualifying (document : Document) (threshold : Q) : list Element :=
  filter (fun e => Qle_bool (inject_Z (offsetTop e)) threshold = true) document.

Definition spec_active (document : Document) (threshold : Q) : option string :=
  id <$> last (qualifying document threshold).

(** The value of [activeSection] after a sequence of evaluations of
    [handleScroll] (the call at mount, then one per scroll event), each made
    on the page and the window of its moment; the state starts as
    [useState('hero')]. *)
Definition after_scrolls (events : list (Document * Window)) : string :=
  foldl (fun activeSection event => handleScroll event.1 event.2 activeSection)
    "hero" events.

End App.

(* ================================================================== *)
(** * components/Navigation.tsx *)
(* ================================================================== *)

Module Navigation.

Record NavItem : Type := { id : string; label : string }.

Definition navItems : list NavItem :=
  [ {| id := "hero"; label := "Home" |};
    {| id := "metrics"; label := "Impact" |};
    {| id := "timeline"; label := "Journey" |};
    {| id := "architecture"; label := "Architecture" |};
    {| id := "contact"; label := "Contact" |} ].

(** [scrollToSection]: the element on which [scrollIntoView] is called,
    none when the id is not in the document. *)
Definition scrollToSection (document : App.Document) (sectionId : string)
  : option App.Element :=
  match App.getElementById document sectionId with
  | Some element => Some element
  | None => None
  end.

(** [activeSection === item.id], the test that gives a button the primary
    colour and the underline. *)
Definition is_active (activeSection : string) (item : NavItem) : bool :=
  String.eqb activeSection (id item).

Definition highlighted (activeSection : string) : list NavItem :=
  filter (fun item => is_active activeSection item = true) navItems.

End Navigation.

(* ================================================================== *)
(** * components/HeroSection.tsx: counters and number formatting *)
(* ================================================================== *)

Module HeroSection.

(** The four animated statistics. *)
Record Stats (A : Type) : Type :=
  { clusters : A; linesOfCode : A; fixers : A; accounts : A }.
Arguments Build_Stats {A}.
Arguments clusters {A}.
Arguments linesOfCode {A}.
Arguments fixers {A}.
Arguments accounts {A}.

(** The [targets] object of the effect, read from the loaded data. *)
Definition targets (data : JsVal) : Res (Stats JsVal) :=
  c ← path data ["platform_transformation"; "after"; "peak_clusters"];
  l ← path data ["technical_achievements"; "b2b_cli"; "lines_of_code"];
  f ← (shs ← path data ["technical_achievements"; "self_healing_system"];
       total_fixers ← opt_get shs "total_fixers";
       js_or total_fixers (Ok (JNum 31)));
  a ← path data ["platform_transformation"; "after"; "peak_accounts"];
  Ok {| clusters := c; linesOfCode := l; fixers := f; accounts := a |}.

(** The animation is modelled for targets of kind number, which is what
    [types.ts] declares for the four fields. *)
Definition as_number (v : JsVal) : option Z :=
  match v with
  | JNum n => Some n
  | _ => None
  end.

Definition numeric (t : Stats JsVal) : option (Stats Z) :=
  c ← as_number (clusters t);
  l ← as_number (linesOfCode t);
  f ← as_number (fixers t);
  a ← as_number (accounts t);
  Some {| clusters := c; linesOfCode := l; fixers := f; accounts := a |}.

Definition duration : Z := 2000.
Definition steps : Z := 60.
Definition stepDuration : Q := (inject_Z duration / inject_Z steps)%Q.

Definition Math_floor : Q -> Z := Qfloor.

(** The state the effect works on: the local [currentStep], the React
    state [animatedStats], and whether the interval is still registered. *)
Record Effect : Type :=
  { currentStep : Z;
    animatedStats : Stats Z;
    timer : bool }.

(** [useState({clusters: 0, ...})], [let currentStep = 0], [setInterval]. *)
Definition mount : Effect :=
  {| currentStep := 0;
     animatedStats := {| clusters := 0; linesOfCode := 0; fixers := 0; accounts := 0 |};
     timer := true |}.

(** [Math.min(currentStep / steps, 1)], the quotient taken exactly. *)
Definition progress_at (step : Z) : Q :=
  Qmin (inject_Z step / inject_Z steps) 1.

(** The callback given to [setInterval], the products taken exactly. *)
Definition interval_callback (targets : Stats Z) (s : Effect) : Effect :=
  let currentStep := currentStep s + 1 in
  let progress := progress_at currentStep in
  {| currentStep := currentStep;
     animatedStats :=
       {| clusters := Math_floor (progress * inject_Z (clusters targets));
          linesOfCode := Math_floor (progress * inject_Z (linesOfCode targets));
          fixers := Math_floor (progress * inject_Z (fixers targets));
          accounts := Math_floor (progress * inject_Z (accounts targets)) |};
     timer := negb (Qeq_bool progress 1) |}.

(** The host fires the callback once per period for as long as the
    interval is registered; [periods] is the time that has passed, in
    periods of [stepDuration].  The result lists the state after each
    firing. *)
Fixpoint firings (targets : Stats Z) (periods : nat) (s : Effect) : list Effect :=
  match periods with
  | O => []
  | S periods' =>
      if timer s
      then let s' := interval_callback targets s in
           s' :: firings targets periods' s'
      else []
  end.

(** Every value of [animatedStats] that is rendered: the initial one, then
    one per firing. *)
Definition displayed (targets : Stats Z) (periods : nat) : list (Stats Z) :=
  animatedStats <$> (mount :: firings targets periods mount).

(** Decimal digits of a natural number. *)
Definition digits (n : Z) : string :=
  NilZero.string_of_uint (N.to_uint (Z.to_N n)).

(** [x.toFixed(0)] for [|x| < 10^21]: the sign, then the integer nearest
    to [|x|], the larger one when two are equally near.  (From [10^21] on
    the method returns exponent notation, which is not modelled.) *)
Definition toFixed0 (x : Q) : string :=
  (if Qle_bool 0 x then "" else "-") +:+ digits (Qfloor (Qabs x + (1 # 2))%Q).

Section Format.

(** [Number.prototype.toLocaleString] with no argument formats for the
    locale of the host. *)
Variable toLocaleString : Z -> string.

(** [formatNumber], closed over [data.technical_achievements.b2b_cli
    .lines_of_code], a number. *)
Definition formatNumber (lines_of_code : Z) (num : Z) : string :=
  if lines_of_code <=? num
  then toFixed0 (inject_Z num / 1000)%Q +:+ "k"
  else toLocaleString num.

End Format.

(** Grouping in the [en-US] locale: a comma before every group of three
    digits, counted from the right. *)
Fixpoint group3 (rev_digits : list ascii) : list ascii :=
  match rev_digits with
  | a :: b :: c :: ((_ :: _) as rest) =>
      a :: b :: c :: ","%char :: group3 rest
  | _ => rev_digits
  end.

Definition toLocaleString_enUS (n : Z) : string :=
  (if 0 <=? n then "" else "-") +:+
  string_of_list_ascii (rev (group3 (rev (list_ascii_of_string (digits (Z.abs n)))))).

End HeroSection.

(** The text of an integer in a template literal or under [toString()],
    for [|n| < 2^53]: every digit of the integer.  (Beyond, the language
    prints the shortest digits that identify the double, and exponent
    notation from [10^21] on; neither is modelled.) *)
Definition Number_toString (n : Z) : string :=
  (if 0 <=? n then "" else "-") +:+ HeroSection.digits (Z.abs n).

(* ================================================================== *)
(** * components/HeroSection.tsx in double precision *)
(* ================================================================== *)

Module HeroSection64.
Import HeroSection.

(** [Math.min(currentStep / steps, 1)]: the quotient is rounded to a
    double; the minimum of two doubles is one of them. *)
Definition progress_at (step : Z) : Q :=
  Qmin (Binary64.round (inject_Z step / inject_Z steps)) 1.

(** [Math.floor(progress * target)]: the product is rounded to a double;
    its floor is an integer. *)
Definition scaled (progress : Q) (target : Z) : Z :=
  Math_floor (Binary64.round (progress * inject_Z target)).

(** The callback given to [setInterval]. *)
Definition interval_callback (targets : Stats Z) (s : Effect) : Effect :=
  let currentStep := currentStep s + 1 in
  let progress := progress_at currentStep in
  {| currentStep := currentStep;
     animatedStats :=
       {| clusters := scaled progress (clusters targets);
          linesOfCode := scaled progress (linesOfCode targets);
          fixers := scaled progress (fixers targets);
          accounts := scaled progress (accounts targets) |};
     timer := negb (Qeq_bool progress 1) |}.

(** The firings of the interval, as in [HeroSection.firings]. *)
Fixpoint firings (targets : Stats Z) (periods : nat) (s : Effect) : list Effect :=
  match periods with
  | O => []
  | S periods' =>
      if timer s
      then let s' := interval_callback targets s in
           s' :: firings targets periods' s'
      else []
  end.

(** Every value of [animatedStats] that is rendered. *)
Definition displayed (targets : Stats Z) (periods : nat) : list (Stats Z) :=
  animatedStats <$> (mount :: firings targets periods mount).

(** The digits of a number, least significant first, cut into groups of
    three; every group is in reading order. *)
Fixpoint groups3 (rev_digits : list ascii) : list (list ascii) :=
  match rev_digits with
  | a :: b :: c :: ((_ :: _) as rest) => [c; b; a] :: groups3 rest
  | _ => [rev rev_digits]
  end.

(** [num.toLocaleString()] of an integer, for a host locale that writes
    Latin digits in groups of three with the given separator ([en-US]: a
    comma). *)
Definition toLocaleString (group_separator : string) (n : Z) : string :=
  (if 0 <=? n then "" else "-") +:+
  String.concat group_separator
    (rev (string_of_list_ascii <$> groups3 (rev (list_ascii_of_string (digits (Z.abs n)))))).

(** [formatNumber], closed over [lines_of_code]: the quotient [num / 1000]
    is a double when [toFixed] reads it. *)
Definition formatNumber (group_separator : string) (lines_of_code num : Z) : string :=
  if lines_of_code <=? num
  then toFixed0 (Binary64.round (inject_Z num / 1000)) +:+ "k"
  else toLocaleString group_separator num.

End HeroSection64.

(* ================================================================== *)
(** * The click handlers of the Metrics, Architecture and Timeline sections *)
(* ================================================================== *)

Module MetricsSection.

(** The titles of [metricCategories]. *)
Definition metricCategories : list string := ["Scale"; "Efficiency"; "Innovation"].

(** [selectedMetric === category.title] *)
Definition is_selected (selectedMetric : option string) (title : string) : bool :=
  bool_decide (selectedMetric = Some title).

(** [setSelectedMetric(selectedMetric === category.title ? null : category.title)] *)
Definition onClick (selectedMetric : option string) (title : string) : option string :=
  if is_selected selectedMetric title then None else Some title.

Definition expanded (selectedMetric : option string) : list string :=
  filter (fun title => is_selected selectedMetric title = true) metricCategories.


Section ToString.

(** [toString()] of an array or an object, which the model leaves to the
    host. *)
Variable object_toString : JsVal -> Res string.

(** The method call [v.toString()]. *)
Definition toString_method (v : JsVal) : Res string :=
  match v with
  | JUndef | JNull => Throw TypeError
  | JBool b => Ok (if b then "true" else "false")
  | JNum n => Ok (Number_toString n)
  | JStr s => Ok s
  | JArr _ | JObj _ => object_toString v
  end.

(** The value of the metric 'Self-Healing Patterns':
    [data.metrics_and_impact.reliability.self_healing_patterns.toString()]. *)
Definition self_healing_patterns (data : JsVal) : Res string :=
  v ← path data ["metrics_and_impact"; "reliability"; "self_healing_patterns"];
  toString_method v.

End ToString.

End MetricsSection.

Module ArchitectureSection.

(** The indices of the six [architectureCards]. *)
Definition architectureCards : list nat := seq 0 6.

(** [selectedCard === index] *)
Definition is_selected (selectedCard : option nat) (index : nat) : bool :=
  bool_decide (selectedCard = Some index).

(** [setSelectedCard(selectedCard === index ? null : index)] *)
Definition onClick (selectedCard : option nat) (index : nat) : option nat :=
  if is_selected selectedCard index then None else Some index.

Definition expanded (selectedCard : option nat) : list nat :=
  filter (fun index => is_selected selectedCard index = true) architectureCards.


End ArchitectureSection.

Module TimelineSection.

(** [selectedEvent === index] *)
Definition is_selected (selectedEvent : option nat) (index : nat) : bool :=
  bool_decide (selectedEvent = Some index).

(** [setSelectedEvent(selectedEvent === index ? null : index)] *)
Definition onClick (selectedEvent : option nat) (index : nat) : option nat :=
  if is_selected selectedEvent index then None else Some index.

(** The cards of a timeline of [n] events that show the full list. *)
Definition expanded (n : nat) (selectedEvent : option nat) : list nat :=
  filter (fun index => is_selected selectedEvent index = true) (seq 0 n).

(** What the body of a card shows: a bullet per achievement, and the hint
    [+n more achievements (click to expand)]. *)
Inductive Line : Type :=
  | Bullet (achievement : JsVal)
  | MoreHint (count : Z).

(** The body of the card of the event at [index], for an [achievements]
    array: every achievement when the card is selected, otherwise
    [achievements[0]] and, when there is more than one, the hint. *)
Definition card_body (selectedEvent : option nat) (index : nat)
    (achievements : list JsVal) : list Line :=
  (if is_selected selectedEvent index
   then Bullet <$> achievements
   else [Bullet (default JUndef (achievements !! 0%nat))])
  ++ (if negb (is_selected selectedEvent index)
         && (1 <? Z.of_nat (length achievements))
      then [MoreHint (Z.of_nat (length achievements) - 1)]
      else []).

(** The achievements a body shows, and the number it announces as hidden. *)
Definition bullets (body : list Line) : list JsVal :=
  omap (fun line => match line with Bullet a => Some a | MoreHint _ => None end) body.

Definition announced (body : list Line) : Z :=
  foldr (fun line acc => match line with Bullet _ => acc | MoreHint n => n + acc end)
    0 body.

End TimelineSection.

(* ================================================================== *)
(** * Sample documents *)
(* ================================================================== *)

Module Samples.

(** A host parser that yields the given document for every text. *)
Definition parser (doc : JsVal) : string -> Res JsVal := fun _ => Ok doc.

(** A timeline document with a single raw event. *)
Definition timeline_of (event_props : gmap string JsVal) : JsVal :=
  obj [("career_timeline", JArr [JObj event_props])].

(** [{period: "2023 Q2", state: "GitOps V2 begins"}] *)
Definition event_with_state : gmap string JsVal :=
  props [("period", JStr "2023 Q2"); ("state", JStr "GitOps V2 begins")].

(** [{period: "2023 Q2", state: ""}] *)
Definition event_empty_state : gmap string JsVal :=
  props [("period", JStr "2023 Q2"); ("state", JStr "")].

(** [{period: "2023 Q2", event: "Kickoff"}] *)
Definition event_neither : gmap string JsVal :=
  props [("period", JStr "2023 Q2"); ("event", JStr "Kickoff")].

(** A master document with every record present; the [career_summary]
    record and the [clusters] count before the transformation are left
    open. *)
Definition master (career_summary before_clusters : JsVal) : JsVal :=
  obj [ ("career_summary", career_summary);
        ("platform_transformation", obj
          [ ("before", obj
              [ ("clusters", before_clusters);
                ("deployment_method", JStr "manual");
                ("environment_creation_time", JStr "weeks");
                ("aws_accounts", JNum 1) ]);
            ("after", obj
              [ ("clusters", JNum 40);
                ("deployment_method", JStr "GitOps");
                ("environment_creation_time", JStr "hours");
                ("aws_accounts", JNum 30);
                ("peak_clusters", JNum 67);
                ("peak_accounts", JNum 36) ]);
            ("scale", obj [("developers_supported", JStr "200+")]) ]);
        ("technical_achievements", obj
          [ ("b2b_cli", obj
              [ ("description", JStr "Platform CLI");
                ("lines_of_code", JNum 100000);
                ("language", JStr "Python");
                ("framework", JStr "Click");
                ("key_features", JArr [JStr "self-healing"]) ]);
            ("infrastructure_architecture", obj
              [ ("codename", JStr "GreenPrint");
                ("design_pattern", JStr "loosely coupled stacks");
                ("problem_solved", JStr "HA/DR");
                ("key_innovations", JArr []) ]);
            ("metrics_and_impact", obj
              [ ("efficiency", obj
                  [ ("environment_creation", JStr "weeks to hours");
                    ("deployment_process", JStr "automated");
                    ("platform_engineer_productivity", JStr "10x") ]) ]) ]);
        ("self_healing_system", obj
          [ ("name", JStr "fixers");
            ("total_fixers", JNum 31);
            ("configuration", JStr "yaml") ]) ].

(** A complete [career_summary] record, and one without [current_role]. *)
Definition summary_complete : JsVal :=
  obj [ ("current_role", JStr "Senior Cloud Platform Engineer");
        ("company", JStr "Las Vegas Sands Corp");
        ("duration", JStr "2022-2024");
        ("location", JStr "Las Vegas");
        ("elevator_pitch", JStr "Platform engineering at scale") ].

Definition summary_without_role : JsVal :=
  obj [ ("company", JStr "Las Vegas Sands Corp");
        ("duration", JStr "2022-2024");
        ("location", JStr "Las Vegas");
        ("elevator_pitch", JStr "Platform engineering at scale") ].

(** A view-model as the Hero section reads it, the
    [technical_achievements.self_healing_system] entry left open. *)
Definition hero_data (self_healing_system : JsVal) : JsVal :=
  obj [ ("platform_transformation", obj
          [ ("after", obj [("peak_clusters", JNum 67); ("peak_accounts", JNum 36)]) ]);
        ("technical_achievements", obj
          [ ("b2b_cli", obj [("lines_of_code", JNum 100000)]);
            ("self_healing_system", self_healing_system) ]) ].

(** The targets of the counters for the figures of the README. *)
Definition hero_targets : HeroSection.Stats Z :=
  {| HeroSection.clusters := 67;
     HeroSection.linesOfCode := 100000;
     HeroSection.fixers := 31;
     HeroSection.accounts := 36 |}.

(** Targets with a Clusters count of 75. *)
Definition targets_75 : HeroSection.Stats Z :=
  {| HeroSection.clusters := 75;
     HeroSection.linesOfCode := 100000;
     HeroSection.fixers := 31;
     HeroSection.accounts := 36 |}.

(** A parser for two texts: ["view-model.yaml"] parses to the view-model of
    the given document, every other text to the document itself. *)
Definition reparser (doc : JsVal) : string -> Res JsVal :=
  fun text =>
    if String.eqb text "view-model.yaml" then DataLoader.view_model doc else Ok doc.

(** The view-model of a document that loads. *)
Definition loaded (doc : JsVal) : JsVal :=
  match DataLoader.view_model doc with
  | Ok data => data
  | Throw _ => JUndef
  end.

(** The given document with its top-level [self_healing_system] replaced. *)
Definition with_self_healing (doc self_healing_system : JsVal) : JsVal :=
  match doc with
  | JObj m => JObj (<["self_healing_system" := self_healing_system]> m)
  | _ => doc
  end.

(** [{period: "2024", achievements: [], state: "done", details: "n/a"}] *)
Definition event_empty_achievements : gmap string JsVal :=
  props [("period", JStr "2024"); ("achievements", JArr []);
         ("state", JStr "done"); ("details", JStr "n/a")].

(** Two scroll evaluations on a page with sections at 0, 800, 1600, 2400
    and 3200. *)
Definition scrolls : list (App.Document * App.Window) :=
  [ (App.render [0; 800; 1600; 2400; 3200],
     {| App.scrollY := 1500; App.innerHeight := 900 |});
    (App.render [0; 800; 1600; 2400; 3200],
     {| App.scrollY := 2500; App.innerHeight := 900 |}) ].

End Samples.

(* ================================================================== *)
(** * Notions used to state the properties of the loader *)
(* ================================================================== *)

(** The records whose fields [loadMasterData] reads, as member chains from
    the root of the document. *)
Definition parent_records : list (list string) :=
  [ ["career_summary"];
    ["platform_transformation"; "before"];
    ["platform_transformation"; "after"];
    ["technical_achievements"; "b2b_cli"];
    ["technical_achievements"; "infrastructure_architecture"];
    ["self_healing_system"];
    ["platform_transformation"; "scale"];
    ["technical_achievements"; "metrics_and_impact"; "efficiency"] ].

(** The record at the end of the chain exists: the chain evaluates, to a
    value that is neither [undefined] nor [null]. *)
Definition present (yamlData : JsVal) (record : list string) : bool :=
  match path yamlData record with
  | Ok v => negb (nullish v)
  | Throw _ => false
  end.

(** Every field of the view-model, with the place in the document it is
    read from. *)
Definition field_sources : list (list string * list string) :=
  [ (["career_summary"; "current_role"], ["career_summary"; "current_role"]);
    (["career_summary"; "company"], ["career_summary"; "company"]);
    (["career_summary"; "duration"], ["career_summary"; "duration"]);
    (["career_summary"; "location"], ["career_summary"; "location"]);
    (["career_summary"; "elevator_pitch"], ["career_summary"; "elevator_pitch"]);
    (["platform_transformation"; "before"; "clusters"],
     ["platform_transformation"; "before"; "clusters"]);
    (["platform_transformation"; "before"; "deployment_method"],
     ["platform_transformation"; "before"; "deployment_method"]);
    (["platform_transformation"; "before"; "environment_creation_time"],
     ["platform_transformation"; "before"; "environment_creation_time"]);
    (["platform_transformation"; "before"; "aws_accounts"],
     ["platform_transformation"; "before"; "aws_accounts"]);
    (["platform_transformation"; "after"; "clusters"],
     ["platform_transformation"; "after"; "clusters"]);
    (["platform_transformation"; "after"; "deployment_method"],
     ["platform_transformation"; "after"; "deployment_method"]);
    (["platform_transformation"; "after"; "environment_creation_time"],
     ["platform_transformation"; "after"; "environment_creation_time"]);
    (["platform_transformation"; "after"; "aws_accounts"],
     ["platform_transformation"; "after"; "aws_accounts"]);
    (["platform_transformation"; "after"; "peak_clusters"],
     ["platform_transformation"; "after"; "peak_clusters"]);
    (["platform_transformation"; "after"; "peak_accounts"],
     ["platform_transformation"; "after"; "peak_accounts"]);
    (["technical_achievements"; "b2b_cli"; "description"],
     ["technical_achievements"; "b2b_cli"; "description"]);
    (["technical_achievements"; "b2b_cli"; "lines_of_code"],
     ["technical_achievements"; "b2b_cli"; "lines_of_code"]);
    (["technical_achievements"; "b2b_cli"; "language"],
     ["technical_achievements"; "b2b_cli"; "language"]);
    (["technical_achievements"; "b2b_cli"; "framework"],
     ["technical_achievements"; "b2b_cli"; "framework"]);
    (["technical_achievements"; "b2b_cli"; "key_features"],
     ["technical_achievements"; "b2b_cli"; "key_features"]);
    (["technical_achievements"; "infrastructure_architecture"; "codename"],
     ["technical_achievements"; "infrastructure_architecture"; "codename"]);
    (["technical_achievements"; "infrastructure_architecture"; "design_pattern"],
     ["technical_achievements"; "infrastructure_architecture"; "design_pattern"]);
    (["technical_achievements"; "infrastructure_architecture"; "problem_solved"],
     ["technical_achievements"; "infrastructure_architecture"; "problem_solved"]);
    (["technical_achievements"; "infrastructure_architecture"; "key_innovations"],
     ["technical_achievements"; "infrastructure_architecture"; "key_innovations"]);
    (["technical_achievements"; "self_healing_system"; "name"],
     ["self_healing_system"; "name"]);
    (["technical_achievements"; "self_healing_system"; "total_fixers"],
     ["self_healing_system"; "total_fixers"]);
    (["technical_achievements"; "self_healing_system"; "configuration"],
     ["self_healing_system"; "configuration"]);
    (["metrics_and_impact"; "scale"; "clusters"],
     ["platform_transformation"; "after"; "peak_clusters"]);
    (["metrics_and_impact"; "scale"; "aws_accounts"],
     ["platform_transformation"; "after"; "peak_accounts"]);
    (["metrics_and_impact"; "scale"; "developers_supported"],
     ["platform_transformation"; "scale"; "developers_supported"]);
    (["metrics_and_impact"; "efficiency"; "environment_creation"],
     ["technical_achievements"; "metrics_and_impact"; "efficiency"; "environment_creation"]);
    (["metrics_and_impact"; "efficiency"; "deployment_process"],
     ["technical_achievements"; "metrics_and_impact"; "efficiency"; "deployment_process"]);
    (["metrics_and_impact"; "efficiency"; "platform_engineer_productivity"],
     ["technical_achievements"; "metrics_and_impact"; "efficiency";
      "platform_engineer_productivity"]);
    (["metrics_and_impact"; "reliability"; "self_healing_patterns"],
     ["self_healing_system"; "total_fixers"]) ].

(** An expression that can fail in one way only. *)
Definition throws_only {A} (e : Exn) (r : Res A) : Prop :=
  forall e', r = Throw e' -> e' = e.

(* ================================================================== *)
(** * Notions used to state the properties of the counters *)
(* ================================================================== *)

(** The four counters of the Hero section. *)
Inductive Counter : Type := Clusters | LinesOfCode | Fixers | Accounts.

Definition stat {A} (c : Counter) (s : HeroSection.Stats A) : A :=
  match c with
  | Clusters => HeroSection.clusters s
  | LinesOfCode => HeroSection.linesOfCode s
  | Fixers => HeroSection.fixers s
  | Accounts => HeroSection.accounts s
  end.

(** The state the callback leaves when it runs for the given step. *)
Definition frame (targets : HeroSection.Stats Z) (step : Z) : HeroSection.Effect :=
  HeroSection.interval_callback targets
    {| HeroSection.currentStep := step - 1;
       HeroSection.animatedStats := HeroSection.animatedStats HeroSection.mount;
       HeroSection.timer := true |}.

(** The value a counter shows at a step. *)
Definition shown (target : Z) (step : Z) : Z :=
  HeroSection.Math_floor (HeroSection.progress_at step * inject_Z target).

(** The same two notions in double precision. *)
Definition frame64 (targets : HeroSection.Stats Z) (step : Z) : HeroSection.Effect :=
  HeroSection64.interval_callback targets
    {| HeroSection.currentStep := step - 1;
       HeroSection.animatedStats := HeroSection.animatedStats HeroSection.mount;
       HeroSection.timer := true |}.

Definition shown64 (target : Z) (step : Z) : Z :=
  HeroSection64.scaled (HeroSection64.progress_at step) target.

(** Digits written in groups of thousands: a leading group of one to three
    characters, then groups of exactly three. *)
Definition thousands (groups : list string) : Prop :=
  match groups with
  | [] => False
  | g :: gs =>
      (1 <= String.length g <= 3)%nat
      /\ Forall (fun g' => String.length g' = 3%nat) gs
  end.


(* ================================================================== *)
(** * Notions used to state the properties of the selections *)
(* ================================================================== *)

(** What the specification asks of a click handler [onClick] and of the
    test [is_selected] that decides which item is drawn expanded. *)
Definition toggles {K : Type} (onClick : option K -> K -> option K)
    (is_selected : option K -> K -> bool) : Prop :=
  (forall k, onClick (Some k) k = None)
  /\ (forall selected k, selected <> Some k -> onClick selected k = Some k)
  /\ (forall k j, is_selected (Some k) j = true <-> j = k)
  /\ (forall j, is_selected None j = false)
  /\ (forall (clicks : list K) i j,
        let selected := foldl onClick None clicks in
        is_selected selected i = true -> is_selected selected j = true -> i = j).

(* ================================================================== *)
(** * Notions used to state the properties of scrolling *)
(* ================================================================== *)

(** A scroll evaluation on the page as [App] renders it, with the Metrics
    section above or level with the Timeline section. *)
Definition on_rendered_page (event : App.Document * App.Window) : Prop :=
  exists hero metrics timeline architecture contact,
    event.1 = App.render [hero; metrics; timeline; architecture; contact]
    /\ metrics <= timeline.

(* ================================================================== *)
(** * Properties of the Timeline Transformer *)
(* ================================================================== *)

Section TimelineProps.

Import DataLoader.

Variable JSON_parse : string -> Res JsVal.

Lemma map_res_ok {A B} (f : A -> Res B) (l : list A) :
  Forall (fun x => is_ok (f x) = true) l ->
  exists l', map_res f l = Ok l' /\ Forall2 (fun x y => f x = Ok y) l l'.
Proof.
  induction 1 as [|x l Hx _ IH]; simpl.
  - exists []. split; [reflexivity | constructor].
  - destruct (f x) as [y|e] eqn:Hfx; [|discriminate].
    destruct IH as (l' & -> & Hall).
    exists (y :: l'). split; [reflexivity|]. constructor; assumption.
Qed.

(** The callback throws only on an item that is [undefined] or [null]. *)
Lemma loadTimeline_item_ok (item : JsVal) :
  nullish item = false -> is_ok (loadTimeline_item item) = true.
Proof.
  intros Hn. destruct item as [| |b|n|s|l|m]; try discriminate; try reflexivity.
  unfold loadTimeline_item, object_literal, js_or; simpl.
  destruct (truthy (default JUndef (m !! "achievements"))); simpl.
  - reflexivity.
  - destruct (truthy (default JUndef (m !! "state"))); reflexivity.
Qed.

(** What the callback returns on a plain object. *)
Lemma loadTimeline_item_obj (m : gmap string JsVal) :
  exists ach,
    loadTimeline_item (JObj m) =
      Ok (obj [("period", default JUndef (m !! "period"));
               ("event", default JUndef (m !! "event"));
               ("achievements", ach)])
    /\ ach =
       (let a := default JUndef (m !! "achievements") in
        let s := default JUndef (m !! "state") in
        if truthy a then a else if truthy s then JArr [s] else JArr []).
Proof.
  unfold loadTimeline_item, object_literal, obj, js_or; simpl.
  destruct (truthy (default JUndef (m !! "achievements"))); simpl.
  - eexists; split; reflexivity.
  - destruct (truthy (default JUndef (m !! "state"))); simpl;
      eexists; split; reflexivity.
Qed.

(** [loadTimeline] on a document whose [career_timeline] is an array
    without [null] or [undefined] entries: one event per item, in order. *)
Lemma loadTimeline_events (timelineJson : string) (doc : JsVal) (items : list JsVal) :
  JSON_parse timelineJson = Ok doc ->
  get doc "career_timeline" = Ok (JArr items) ->
  Forall (fun item => nullish item = false) items ->
  exists events,
    loadTimeline JSON_parse timelineJson = Ok (JArr events)
    /\ Forall2 (fun item ev => loadTimeline_item item = Ok ev) items events.
Proof.
  intros Hparse Hget Hitems.
  destruct (map_res_ok loadTimeline_item items) as (events & Hmap & Hall).
  { eapply Forall_impl; [exact Hitems|].
    intros item Hn. apply loadTimeline_item_ok, Hn. }
  exists events. split; [|exact Hall].
  unfold loadTimeline. rewrite Hparse; simpl. rewrite Hget; simpl.
  rewrite Hmap. reflexivity.
Qed.

Lemma loadTimeline_event_at (timelineJson : string) (doc : JsVal)
    (items : list JsVal) (i : nat) (item : JsVal) :
  JSON_parse timelineJson = Ok doc ->
  get doc "career_timeline" = Ok (JArr items) ->
  Forall (fun item => nullish item = false) items ->
  items !! i = Some item ->
  exists events ev,
    loadTimeline JSON_parse timelineJson = Ok (JArr events)
    /\ length events = length items
    /\ events !! i = Some ev
    /\ loadTimeline_item item = Ok ev.
Proof.
  intros Hparse Hget Hitems Hi.
  destruct (loadTimeline_events _ _ _ Hparse Hget Hitems) as (events & Hload & Hall).
  destruct (Forall2_lookup_l _ _ _ _ _ Hall Hi) as (ev & Hev & Hitem).
  exists events, ev. repeat split; try assumption.
  symmetry. eapply Forall2_length, Hall.
Qed.

(** ** The three shapes of a raw event without [achievements] *)

Lemma loadTimeline_item_neither (m : gmap string JsVal) :
  m !! "achievements" = None ->
  m !! "state" = None ->
  loadTimeline_item (JObj m) =
    Ok (obj [("period", default JUndef (m !! "period"));
             ("event", default JUndef (m !! "event"));
             ("achievements", JArr [])]).
Proof.
  intros Ha Hs.
  destruct (loadTimeline_item_obj m) as (ach & -> & ->).
  rewrite Ha, Hs. reflexivity.
Qed.

Lemma loadTimeline_item_empty_state (m : gmap string JsVal) :
  m !! "achievements" = None ->
  m !! "state" = Some (JStr "") ->
  loadTimeline_item (JObj m) =
    Ok (obj [("period", default JUndef (m !! "period"));
             ("event", default JUndef (m !! "event"));
             ("achievements", JArr [])]).
Proof.
  intros Ha Hs.
  destruct (loadTimeline_item_obj m) as (ach & -> & ->).
  rewrite Ha, Hs. reflexivity.
Qed.

Lemma loadTimeline_item_state (m : gmap string JsVal) (s : string) :
  m !! "achievements" = None ->
  m !! "state" = Some (JStr s) ->
  s <> "" ->
  loadTimeline_item (JObj m) =
    Ok (obj [("period", default JUndef (m !! "period"));
             ("event", default JUndef (m !! "event"));
             ("achievements", JArr [JStr s])]).
Proof.
  intros Ha Hs Hne.
  destruct (loadTimeline_item_obj m) as (ach & -> & ->).
  rewrite Ha, Hs. simpl.
  destruct (String.eqb_spec s "") as [->|_]; [contradiction|]. reflexivity.
Qed.

Lemma get_achievements (p e a : JsVal) :
  get (obj [("period", p); ("event", e); ("achievements", a)]) "achievements" = Ok a.
Proof. reflexivity. Qed.

(** C2 (as amended).  An event that has neither [achievements] nor [state]
    does not make [loadTimeline] fail: the transformer returns one event
    per raw event, and the event at that position carries the raw
    [period] and [event] and an empty [achievements] array. *)
Theorem loadTimeline_neither_gives_empty
    (timelineJson : string) (doc : JsVal) (items : list JsVal)
    (i : nat) (m : gmap string JsVal) :
  JSON_parse timelineJson = Ok doc ->
  get doc "career_timeline" = Ok (JArr items) ->
  Forall (fun item => nullish item = false) items ->
  items !! i = Some (JObj m) ->
  m !! "achievements" = None ->
  m !! "state" = None ->
  exists events,
    loadTimeline JSON_parse timelineJson = Ok (JArr events)
    /\ length events = length items
    /\ events !! i =
         Some (obj [("period", default JUndef (m !! "period"));
                    ("event", default JUndef (m !! "event"));
                    ("achievements", JArr [])]).
Proof.
  intros Hparse Hget Hitems Hi Ha Hs.
  destruct (loadTimeline_event_at _ _ _ _ _ Hparse Hget Hitems Hi)
    as (events & ev & Hload & Hlen & Hev & Hitem).
  rewrite (loadTimeline_item_neither m Ha Hs) in Hitem.
  injection Hitem as <-.
  exists events. repeat split; assumption.
Qed.

(** C5 (as amended).  For an event without [achievements] whose [state] is
    a non-empty string, the transformed event has the one-element
    [achievements] array holding exactly that string. *)
Theorem loadTimeline_wraps_state
    (timelineJson : string) (doc : JsVal) (items : list JsVal)
    (i : nat) (m : gmap string JsVal) (s : string) :
  JSON_parse timelineJson = Ok doc ->
  get doc "career_timeline" = Ok (JArr items) ->
  Forall (fun item => nullish item = false) items ->
  items !! i = Some (JObj m) ->
  m !! "achievements" = None ->
  m !! "state" = Some (JStr s) ->
  s <> "" ->
  exists events ev achievements,
    loadTimeline JSON_parse timelineJson = Ok (JArr events)
    /\ events !! i = Some ev
    /\ get ev "achievements" = Ok (JArr achievements)
    /\ achievements = [JStr s]
    /\ length achievements = 1%nat.
Proof.
  intros Hparse Hget Hitems Hi Ha Hs Hne.
  destruct (loadTimeline_event_at _ _ _ _ _ Hparse Hget Hitems Hi)
    as (events & ev & Hload & Hlen & Hev & Hitem).
  rewrite (loadTimeline_item_state m s Ha Hs Hne) in Hitem.
  injection Hitem as <-.
  exists events. eexists. exists [JStr s].
  repeat split; [exact Hload | exact Hev |].
  apply get_achievements.
Qed.

(** C10.  [loadTimeline] does not throw on an event whose [achievements]
    is absent and whose [state] is absent or the empty string; the event
    it produces has an [achievements] array of length 0. *)
Theorem loadTimeline_total_on_missing_fields
    (timelineJson : string) (doc : JsVal) (items : list JsVal)
    (i : nat) (m : gmap string JsVal) :
  JSON_parse timelineJson = Ok doc ->
  get doc "career_timeline" = Ok (JArr items) ->
  Forall (fun item => nullish item = false) items ->
  items !! i = Some (JObj m) ->
  m !! "achievements" = None ->
  m !! "state" = None \/ m !! "state" = Some (JStr "") ->
  exists events ev achievements,
    loadTimeline JSON_parse timelineJson = Ok (JArr events)
    /\ events !! i = Some ev
    /\ get ev "achievements" = Ok (JArr achievements)
    /\ length achievements = 0%nat.
Proof.
  intros Hparse Hget Hitems Hi Ha Hs.
  destruct (loadTimeline_event_at _ _ _ _ _ Hparse Hget Hitems Hi)
    as (events & ev & Hload & Hlen & Hev & Hitem).
  assert (Hshape : loadTimeline_item (JObj m) =
    Ok (obj [("period", default JUndef (m !! "period"));
             ("event", default JUndef (m !! "event"));
             ("achievements", JArr [])])).
  { destruct Hs as [Hs|Hs].
    - apply loadTimeline_item_neither; assumption.
    - apply loadTimeline_item_empty_state; assumption. }
  rewrite Hshape in Hitem. injection Hitem as <-.
  exists events. eexists. exists []. repeat split; [exact Hload | exact Hev |].
  apply get_achievements.
Qed.

End TimelineProps.

(** C2, counterexample.  The raw event [{period: "2023 Q2", event: "Kickoff"}]
    has neither [achievements] nor [state]; [loadTimeline] does not fail on
    it and produces an event. *)
Lemma loadTimeline_neither_counterexample :
  Samples.event_neither !! "achievements" = None
  /\ Samples.event_neither !! "state" = None
  /\ DataLoader.loadTimeline (Samples.parser (Samples.timeline_of Samples.event_neither))
       "timeline.json"
     = Ok (JArr [obj [("period", JStr "2023 Q2");
                      ("event", JStr "Kickoff");
                      ("achievements", JArr [])]]).
Proof. repeat split; reflexivity. Qed.

Lemma loadTimeline_neither_gives_empty_witness :
  exists events,
    DataLoader.loadTimeline (Samples.parser (Samples.timeline_of Samples.event_neither))
      "timeline.json" = Ok (JArr events)
    /\ length events = 1%nat
    /\ events !! 0%nat =
         Some (obj [("period", JStr "2023 Q2");
                    ("event", JStr "Kickoff");
                    ("achievements", JArr [])]).
Proof.
  apply (loadTimeline_neither_gives_empty
           (Samples.parser (Samples.timeline_of Samples.event_neither))
           "timeline.json" (Samples.timeline_of Samples.event_neither)
           [JObj Samples.event_neither] 0 Samples.event_neither);
    [reflexivity | reflexivity | repeat constructor | reflexivity
    | reflexivity | reflexivity].
Defined.

(** C5, counterexample.  The raw event [{period: "2023 Q2", state: ""}] lacks
    [achievements] and has a [state] string, yet its [achievements] array
    is empty, not of length 1. *)
Lemma loadTimeline_empty_state_counterexample :
  Samples.event_empty_state !! "achievements" = None
  /\ Samples.event_empty_state !! "state" = Some (JStr "")
  /\ DataLoader.loadTimeline (Samples.parser (Samples.timeline_of Samples.event_empty_state))
       "timeline.json"
     = Ok (JArr [obj [("period", JStr "2023 Q2");
                      ("event", JUndef);
                      ("achievements", JArr [])]]).
Proof. repeat split; reflexivity. Qed.

Lemma loadTimeline_wraps_state_witness :
  exists events ev achievements,
    DataLoader.loadTimeline (Samples.parser (Samples.timeline_of Samples.event_with_state))
      "timeline.json" = Ok (JArr events)
    /\ events !! 0%nat = Some ev
    /\ get ev "achievements" = Ok (JArr achievements)
    /\ achievements = [JStr "GitOps V2 begins"]
    /\ length achievements = 1%nat.
Proof.
  apply (loadTimeline_wraps_state
           (Samples.parser (Samples.timeline_of Samples.event_with_state))
           "timeline.json" (Samples.timeline_of Samples.event_with_state)
           [JObj Samples.event_with_state] 0 Samples.event_with_state
           "GitOps V2 begins");
    [reflexivity | reflexivity | repeat constructor | reflexivity
    | reflexivity | reflexivity | discriminate].
Defined.

Lemma loadTimeline_total_on_missing_fields_witness :
  exists events ev achievements,
    DataLoader.loadTimeline (Samples.parser (Samples.timeline_of Samples.event_empty_state))
      "timeline.json" = Ok (JArr events)
    /\ events !! 0%nat = Some ev
    /\ get ev "achievements" = Ok (JArr achievements)
    /\ length achievements = 0%nat.
Proof.
  apply (loadTimeline_total_on_missing_fields
           (Samples.parser (Samples.timeline_of Samples.event_empty_state))
           "timeline.json" (Samples.timeline_of Samples.event_empty_state)
           [JObj Samples.event_empty_state] 0 Samples.event_empty_state);
    [reflexivity | reflexivity | repeat constructor | reflexivity
    | reflexivity | right; reflexivity].
Defined.

(* ================================================================== *)
(** * Properties of the View-Model Loader *)
(* ================================================================== *)

Section MasterDataProps.
Import DataLoader.
Variable yaml_load : string -> Res JsVal.

Lemma get_present (v : JsVal) (k : string) :
  nullish v = false -> get v k = Ok (field v k).
Proof. destruct v; intros H; try discriminate; reflexivity. Qed.

Lemma get_absent (v : JsVal) (k : string) :
  nullish v = true -> get v k = Throw TypeError.
Proof. destruct v; intros H; try discriminate; reflexivity. Qed.

Lemma path_snoc (v : JsVal) (ks : list string) (k : string) :
  path v (ks ++ [k]) = (r ← path v ks; get r k).
Proof.
  revert v. induction ks as [|k' ks IH]; intros v; simpl.
  - destruct (get v k); reflexivity.
  - destruct (get v k') as [v'|e]; simpl; [apply IH | reflexivity].
Qed.

Lemma path_field (yamlData : JsVal) (record : list string) :
  present yamlData record = true ->
  exists r, path yamlData record = Ok r /\
    forall k, path yamlData (record ++ [k]) = Ok (field r k).
Proof.
  unfold present. destruct (path yamlData record) as [r|e] eqn:Hr; [|discriminate].
  intros Hn. exists r. split; [reflexivity|]. intros k.
  rewrite path_snoc, Hr. simpl. apply get_present.
  destruct (nullish r); [discriminate | reflexivity].
Qed.

Lemma is_ok_path_snoc (yamlData : JsVal) (record : list string) (k : string) :
  is_ok (path yamlData (record ++ [k])) = present yamlData record.
Proof.
  unfold present. rewrite path_snoc.
  destruct (path yamlData record) as [r|e]; simpl; [|reflexivity].
  destruct r; reflexivity.
Qed.

Lemma is_ok_object_props (acc : gmap string JsVal) (inits : list (string * Res JsVal)) :
  is_ok (object_props acc inits) = forallb (fun i => is_ok (snd i)) inits.
Proof.
  revert acc. induction inits as [|[k e] inits IH]; intros acc; simpl.
  - reflexivity.
  - destruct e as [v|x]; simpl; [apply IH | reflexivity].
Qed.

Lemma is_ok_object_literal (inits : list (string * Res JsVal)) :
  is_ok (object_literal inits) = forallb (fun i => is_ok (snd i)) inits.
Proof.
  unfold object_literal. rewrite <- (is_ok_object_props ∅).
  destruct (object_props ∅ inits); reflexivity.
Qed.

Ltac fold_records :=
  repeat match goal with
  | |- context [is_ok (path ?y ?l)] =>
      let r := eval cbv in (removelast l) in
      let k := eval cbv in (List.last l "") in
      change (path y l) with (path y (r ++ [k]));
      rewrite (is_ok_path_snoc y r k)
  end.

Lemma view_model_ok (yamlData : JsVal) :
  is_ok (view_model yamlData) = forallb (present yamlData) parent_records.
Proof.
  unfold view_model.
  repeat (rewrite is_ok_object_literal; cbn [forallb snd]).
  fold_records.
  cbn [forallb parent_records].
  repeat match goal with
  | |- context [present ?y ?r] => destruct (present y r)
  end; reflexivity.
Qed.

Lemma throws_only_get (v : JsVal) (k : string) : throws_only TypeError (get v k).
Proof. intros e. destruct v; simpl; congruence. Qed.

Lemma throws_only_path (v : JsVal) (ks : list string) :
  throws_only TypeError (path v ks).
Proof.
  revert v. induction ks as [|k ks IH]; intros v e; simpl.
  - discriminate.
  - destruct (get v k) as [v'|e0] eqn:Hg; simpl.
    + apply IH.
    + intros [= <-]. eapply throws_only_get, Hg.
Qed.

Lemma throws_only_object_props (e : Exn) (acc : gmap string JsVal)
    (inits : list (string * Res JsVal)) :
  Forall (fun i => throws_only e (snd i)) inits ->
  throws_only e (object_props acc inits).
Proof.
  intros Hall. revert acc.
  induction Hall as [|[k r] inits Hr _ IH]; intros acc e'; simpl.
  - discriminate.
  - destruct r as [v|e0]; simpl.
    + apply IH.
    + intros [= <-]. apply Hr. reflexivity.
Qed.

Lemma throws_only_object_literal (e : Exn) (inits : list (string * Res JsVal)) :
  Forall (fun i => throws_only e (snd i)) inits ->
  throws_only e (object_literal inits).
Proof.
  intros Hall e'. unfold object_literal.
  destruct (object_props ∅ inits) as [m|e0] eqn:Hp; simpl; [discriminate|].
  intros [= <-]. eapply throws_only_object_props; eassumption.
Qed.

Lemma view_model_throws_only (yamlData : JsVal) :
  throws_only TypeError (view_model yamlData).
Proof.
  unfold view_model.
  repeat first
    [ apply throws_only_path
    | apply throws_only_object_literal
    | apply Forall_cons; split
    | apply Forall_nil_2 ]; cbn [snd].
  all: try apply throws_only_path.
Qed.

Lemma view_model_fields (yamlData : JsVal) :
  forallb (present yamlData) parent_records = true ->
  exists data,
    view_model yamlData = Ok data
    /\ Forall (fun '(out, src) =>
                 exists v, path yamlData src = Ok v /\ path data out = Ok v)
         field_sources.
Proof.
  intros Hall. cbn [forallb parent_records] in Hall.
  repeat (apply andb_prop in Hall; destruct Hall as [? Hall]).
  repeat match goal with
  | H : present _ _ = true |- _ =>
      let r := fresh "r" in let Hr := fresh "Hr" in let Hk := fresh "Hk" in
      destruct (path_field _ _ H) as (r & Hr & Hk); cbn [app] in Hk; clear H Hr
  end.
  unfold view_model.
  repeat match goal with
  | H : forall k, path _ _ = Ok _ |- _ => rewrite !H
  end.
  eexists. split; [reflexivity|].
  unfold field_sources.
  repeat (apply Forall_cons; split);
    try (eexists; split;
         [ match goal with H : forall k, path _ _ = Ok _ |- _ => apply H end
         | reflexivity ]).
  apply Forall_nil_2.
Qed.

Lemma opt_get_field (v : JsVal) (k : string) : opt_get v k = Ok (field v k).
Proof. destruct v; reflexivity. Qed.

Lemma view_model_nullish (yamlData : JsVal) :
  nullish yamlData = true -> view_model yamlData = Throw TypeError.
Proof. destruct yamlData; intros H; try discriminate; reflexivity. Qed.

(** The lines [loadMasterData] writes to the console. *)
Lemma loadMasterData_run (masterDataYaml : string) :
  exists log,
    forall w,
      loadMasterData yaml_load masterDataYaml w =
        (yaml_load masterDataYaml ≫= view_model,
         {| console := console w ++ log |}).
Proof.
  unfold loadMasterData, mbind, Js_bind, lift, console_log.
  destruct (yaml_load masterDataYaml) as [yamlData|e]; simpl.
  - destruct (nullish yamlData) eqn:Hn.
    + exists []. intros [c]. rewrite (get_absent _ _ Hn); simpl.
      rewrite (view_model_nullish _ Hn), app_nil_r. reflexivity.
    + eexists. intros w.
      rewrite !(get_present _ _ Hn); simpl.
      rewrite !opt_get_field; simpl. rewrite !opt_get_field; simpl.
      rewrite <- app_assoc. reflexivity.
  - exists []. intros [c]. simpl. rewrite app_nil_r. reflexivity.
Qed.

(** C3 (as amended).  [loadMasterData] does not validate the document.
    On a parsed document it succeeds exactly when every record whose
    fields it reads is present; its only failure is the [TypeError] of
    reading through an absent record; and when it succeeds, every field
    of the view-model is the value found at its place in the document:
    [undefined] when the field is absent there, and the value as it is
    whatever its kind.  No field is replaced by a placeholder. *)
Theorem loadMasterData_copies_fields
    (masterDataYaml : string) (yamlData : JsVal) (w : World) :
  yaml_load masterDataYaml = Ok yamlData ->
  let result := fst (loadMasterData yaml_load masterDataYaml w) in
  is_ok result = forallb (present yamlData) parent_records
  /\ throws_only TypeError result
  /\ (forallb (present yamlData) parent_records = true ->
      exists data,
        result = Ok data
        /\ Forall (fun '(out, src) =>
                     exists v, path yamlData src = Ok v /\ path data out = Ok v)
             field_sources).
Proof.
  intros Hparse result. subst result.
  destruct (loadMasterData_run masterDataYaml) as (log & Hrun).
  rewrite (Hrun w), Hparse. simpl.
  split; [|split].
  - apply view_model_ok.
  - apply view_model_throws_only.
  - apply view_model_fields.
Qed.

End MasterDataProps.

(** C3, counterexample.  In the first document the required field
    [career_summary.current_role] is absent; in the second the required
    number [platform_transformation.before.clusters] is a string.
    [loadMasterData] fails on neither: it returns a view-model whose field
    is [undefined], respectively the string. *)
Lemma loadMasterData_missing_field_counterexample :
  let absent := Samples.master Samples.summary_without_role (JNum 1) in
  let wrong_kind := Samples.master Samples.summary_complete (JStr "one") in
  let load doc :=
    fst (DataLoader.loadMasterData (Samples.parser doc) "master-data.yaml"
           {| console := [] |}) in
  path absent ["career_summary"; "current_role"] = Ok JUndef
  /\ is_ok (load absent) = true
  /\ (data ← load absent; path data ["career_summary"; "current_role"]) = Ok JUndef
  /\ path wrong_kind ["platform_transformation"; "before"; "clusters"] = Ok (JStr "one")
  /\ is_ok (load wrong_kind) = true
  /\ (data ← load wrong_kind; path data ["platform_transformation"; "before"; "clusters"])
     = Ok (JStr "one").
Proof. repeat split; vm_compute; reflexivity. Qed.

Lemma loadMasterData_copies_fields_witness :
  let yamlData := Samples.master Samples.summary_without_role (JNum 1) in
  let result :=
    fst (DataLoader.loadMasterData (Samples.parser yamlData) "master-data.yaml"
           {| console := [] |}) in
  is_ok result = forallb (present yamlData) parent_records
  /\ throws_only TypeError result
  /\ (forallb (present yamlData) parent_records = true ->
      exists data,
        result = Ok data
        /\ Forall (fun '(out, src) =>
                     exists v, path yamlData src = Ok v /\ path data out = Ok v)
             field_sources).
Proof.
  apply (loadMasterData_copies_fields
           (Samples.parser (Samples.master Samples.summary_without_role (JNum 1)))
           "master-data.yaml"
           (Samples.master Samples.summary_without_role (JNum 1))
           {| console := [] |}).
  reflexivity.
Defined.

(* ================================================================== *)
(** * Properties of the Scroll Coordinator *)
(* ================================================================== *)

Section ScrollProps.
Import App.

(** The loop reports the last entry of the first [n] of [sections] that is
    reached, and keeps the old value when none is. *)
Lemma handleScroll_loop_reached (document : Document) (sp : Q) (n : nat)
    (active name : string) :
  sections !! n = Some name ->
  reached sp (getElementById document name) = true ->
  handleScroll_loop document sp (S n) active = name.
Proof. intros Hn Hr. simpl. rewrite Hn, Hr. reflexivity. Qed.

Lemma handleScroll_loop_skip (document : Document) (sp : Q) (n : nat)
    (active name : string) :
  sections !! n = Some name ->
  reached sp (getElementById document name) = false ->
  handleScroll_loop document sp (S n) active = handleScroll_loop document sp n active.
Proof. intros Hn Hr. simpl. rewrite Hn, Hr. reflexivity. Qed.

Lemma handleScroll_metrics_shadows_timeline
    (hero metrics timeline architecture contact : Z) (window : Window) (active : string) :
  let document := render [hero; metrics; timeline; architecture; contact] in
  Qle_bool (inject_Z metrics) (scrollPosition window) = true ->
  Qle_bool (inject_Z architecture) (scrollPosition window) = false ->
  Qle_bool (inject_Z contact) (scrollPosition window) = false ->
  handleScroll document window active = "metrics".
Proof.
  intros document Hm Ha Hc. unfold handleScroll.
  change (length sections) with 5%nat.
  rewrite (handleScroll_loop_skip _ _ 4 _ "contact"); [|reflexivity|exact Hc].
  rewrite (handleScroll_loop_skip _ _ 3 _ "architecture"); [|reflexivity|exact Ha].
  apply handleScroll_loop_reached; [reflexivity|exact Hm].
Qed.

(** The last qualifying section in document order, when the Timeline
    section qualifies and the two sections below it do not. *)
Lemma spec_active_timeline
    (hero metrics timeline architecture contact : Z) (threshold : Q) :
  let document := render [hero; metrics; timeline; architecture; contact] in
  Qle_bool (inject_Z timeline) threshold = true ->
  Qle_bool (inject_Z architecture) threshold = false ->
  Qle_bool (inject_Z contact) threshold = false ->
  spec_active document threshold = Some "timeline".
Proof.
  intros document Ht Ha Hc. unfold spec_active, qualifying.
  change document with
    [ Build_Element "hero" hero; Build_Element "metrics" metrics;
      Build_Element "timeline" timeline; Build_Element "architecture" architecture;
      Build_Element "contact" contact ].
  rewrite !filter_cons, filter_nil. cbn [offsetTop].
  rewrite Ht, Ha, Hc.
  destruct (Qle_bool (inject_Z hero) threshold),
           (Qle_bool (inject_Z metrics) threshold); reflexivity.
Qed.

(** C1, on the code.  On the page as [App] renders it, whenever the Metrics
    and Timeline sections both have their top at or above the threshold and
    the Architecture and Contact sections do not, the last qualifying
    section in document order is Timeline, and [handleScroll] reports
    Metrics. *)
Theorem handleScroll_reports_metrics_below_timeline
    (hero metrics timeline architecture contact : Z) (window : Window) (active : string) :
  let document := render [hero; metrics; timeline; architecture; contact] in
  Qle_bool (inject_Z metrics) (scrollPosition window) = true ->
  Qle_bool (inject_Z timeline) (scrollPosition window) = true ->
  Qle_bool (inject_Z architecture) (scrollPosition window) = false ->
  Qle_bool (inject_Z contact) (scrollPosition window) = false ->
  spec_active document (scrollPosition window) = Some "timeline"
  /\ handleScroll document window active = "metrics".
Proof.
  intros document Hm Ht Ha Hc. split.
  - apply spec_active_timeline; assumption.
  - apply handleScroll_metrics_shadows_timeline; assumption.
Qed.

End ScrollProps.

(** Sections at offsets 0, 800, 1600, 2400 and 3200, the window scrolled to
    1500 with a height of 900: the threshold is 1800 and the Hero, Metrics
    and Timeline sections qualify. *)
Example scroll_threshold_1800 :
  let document := App.render [0; 800; 1600; 2400; 3200] in
  let window := {| App.scrollY := 1500; App.innerHeight := 900 |} in
  (App.scrollPosition window == 1800)%Q
  /\ App.id <$> App.qualifying document (App.scrollPosition window)
     = ["hero"; "metrics"; "timeline"].
Proof. split; reflexivity. Qed.

Lemma handleScroll_reports_metrics_below_timeline_witness :
  let document := App.render [0; 800; 1600; 2400; 3200] in
  let window := {| App.scrollY := 1500; App.innerHeight := 900 |} in
  App.spec_active document (App.scrollPosition window) = Some "timeline"
  /\ App.handleScroll document window "hero" = "metrics".
Proof.
  apply (handleScroll_reports_metrics_below_timeline 0 800 1600 2400 3200
           {| App.scrollY := 1500; App.innerHeight := 900 |} "hero");
    reflexivity.
Defined.

(* ================================================================== *)
(** * Properties of the Counter Animator and of number formatting *)
(* ================================================================== *)

Section CounterProps.
Import HeroSection.

Lemma progress_at_lt (k : Z) : 0 <= k < steps -> (progress_at k == inject_Z k / inject_Z steps)%Q.
Proof.
  intros Hk. unfold progress_at. apply Q.min_l.
  unfold Qle, Qdiv, Qmult, Qinv, inject_Z, steps in *; simpl. lia.
Qed.

Lemma progress_at_steps (k : Z) : steps <= k -> (progress_at k == 1)%Q.
Proof.
  intros Hk. unfold progress_at. apply Q.min_r.
  unfold Qle, Qdiv, Qmult, Qinv, inject_Z, steps in *; simpl. lia.
Qed.

Lemma progress_at_nonneg (k : Z) : 0 <= k -> (0 <= progress_at k)%Q.
Proof.
  intros Hk. unfold progress_at. apply Q.min_glb.
  - unfold Qle, Qdiv, Qmult, Qinv, inject_Z, steps; simpl. lia.
  - discriminate.
Qed.


Lemma timer_running (k : Z) : 0 <= k < steps -> Qeq_bool (progress_at k) 1 = false.
Proof.
  intros Hk. destruct (Qeq_bool (progress_at k) 1) eqn:E; [|reflexivity].
  apply Qeq_bool_iff in E. rewrite (progress_at_lt k Hk) in E.
  unfold Qeq, Qdiv, Qmult, Qinv, inject_Z, steps in *; simpl in *. lia.
Qed.

Lemma timer_cleared (k : Z) : steps <= k -> Qeq_bool (progress_at k) 1 = true.
Proof. intros Hk. apply Qeq_bool_iff, progress_at_steps, Hk. Qed.

Lemma shown_0 (target : Z) : shown target 0 = 0.
Proof. unfold shown, Math_floor, progress_at. simpl. destruct target; reflexivity. Qed.

Lemma shown_final (target : Z) (k : Z) : steps <= k -> shown target k = target.
Proof.
  intros Hk. unfold shown, Math_floor.
  rewrite (Qfloor_comp _ (inject_Z target)).
  - apply Qfloor_Z.
  - rewrite (progress_at_steps k Hk). apply Qmult_1_l.
Qed.


Lemma frame_step (targets : Stats Z) (k : Z) : currentStep (frame targets k) = k.
Proof. unfold frame, interval_callback; simpl. lia. Qed.

Lemma frame_stat (targets : Stats Z) (k : Z) (c : Counter) :
  stat c (animatedStats (frame targets k)) = shown (stat c targets) k.
Proof.
  unfold frame, interval_callback, shown; simpl.
  replace (k - 1 + 1) with k by lia. destruct c; reflexivity.
Qed.

Lemma interval_callback_frame (targets : Stats Z) (s : Effect) :
  interval_callback targets s = frame targets (currentStep s + 1).
Proof.
  unfold frame, interval_callback; simpl.
  replace (currentStep s + 1 - 1 + 1) with (currentStep s + 1) by lia. reflexivity.
Qed.

Lemma frame_timer (targets : Stats Z) (k : Z) :
  0 <= k -> timer (frame targets k) = bool_decide (k < steps).
Proof.
  intros Hk. unfold frame, interval_callback; simpl.
  replace (k - 1 + 1) with k by lia.
  case_bool_decide.
  - rewrite timer_running by lia. reflexivity.
  - rewrite timer_cleared by lia. reflexivity.
Qed.

(** The interval fires until step 60 and is cleared there: from a running
    state at step [k], with [m] steps to go and at least that many periods,
    the firings are the frames [k+1 .. k+m]. *)
Lemma firings_frames (targets : Stats Z) (m : nat) :
  forall (periods : nat) (s : Effect),
    (S m <= periods)%nat ->
    0 <= currentStep s ->
    currentStep s + Z.of_nat (S m) = steps ->
    timer s = true ->
    firings targets periods s =
      (fun i : nat => frame targets (currentStep s + 1 + Z.of_nat i)) <$> seq 0 (S m).
Proof.
  induction m as [|m IH]; intros periods s Hp Hk Hm Ht;
    (destruct periods as [|periods]; [lia|]);
    simpl firings; rewrite Ht, interval_callback_frame;
    rewrite <- (cons_seq _ 0), fmap_cons; change (Z.of_nat 0) with 0;
    rewrite Z.add_0_r; f_equal.
  - destruct periods as [|periods']; [reflexivity|]. cbn [firings].
    rewrite frame_timer by lia. rewrite bool_decide_eq_false_2 by lia. reflexivity.
  - rewrite IH.
    + rewrite <- (fmap_S_seq 0), <- list_fmap_compose. apply list_fmap_ext.
      intros i x _. unfold compose. rewrite frame_step. f_equal. lia.
    + lia.
    + rewrite frame_step. lia.
    + rewrite frame_step. lia.
    + rewrite frame_timer by lia. apply bool_decide_eq_true_2. lia.
Qed.

Lemma displayed_frames (targets : Stats Z) (periods : nat) :
  (60 <= periods)%nat ->
  displayed targets periods =
    animatedStats mount ::
    ((fun i : nat => animatedStats (frame targets (1 + Z.of_nat i))) <$> seq 0 60).
Proof.
  intros Hp. unfold displayed. rewrite fmap_cons. f_equal.
  rewrite (firings_frames targets 59 periods mount Hp); reflexivity.
Qed.

Lemma displayed_stat (targets : Stats Z) (periods : nat) (c : Counter) :
  (60 <= periods)%nat ->
  stat c <$> displayed targets periods =
    (fun i : nat => shown (stat c targets) (Z.of_nat i)) <$> seq 0 61.
Proof.
  intros Hp. rewrite (displayed_frames targets periods Hp).
  rewrite fmap_cons, <- list_fmap_compose.
  change (seq 0 61) with (0%nat :: seq 1 60).
  rewrite fmap_cons, <- (fmap_S_seq 0), <- list_fmap_compose.
  f_equal.
  - change (Z.of_nat 0) with 0. rewrite shown_0. destruct c; reflexivity.
  - apply list_fmap_ext. intros i x _. unfold compose.
    rewrite frame_stat. f_equal. lia.
Qed.



End CounterProps.

(** The frames of the Clusters counter for a target of 67, and the texts of
    the Lines of Code counter around the end of the animation, in the
    [en-US] locale. *)
Example displayed_clusters_67 :
  stat Clusters <$> HeroSection.displayed Samples.hero_targets 100%nat =
    [0; 1; 2; 3; 4; 5; 6; 7; 8; 10; 11; 12; 13; 14; 15; 16; 17; 18; 20;
     21; 22; 23; 24; 25; 26; 27; 29; 30; 31; 32; 33; 34; 35; 36; 37; 39;
     40; 41; 42; 43; 44; 45; 46; 48; 49; 50; 51; 52; 53; 54; 55; 56; 58;
     59; 60; 61; 62; 63; 64; 65; 67].
Proof. vm_compute. reflexivity. Qed.

Example formatNumber_enUS :
  HeroSection.formatNumber HeroSection.toLocaleString_enUS 100000 <$>
    [0; 1666; 98333; 99999; 100000; 100499; 100500; 1234567]
  = ["0"; "1,666"; "98,333"; "99,999"; "100k"; "100k"; "101k"; "1235k"].
Proof. vm_compute. reflexivity. Qed.

(** The target of the self-healing counter for some shapes of the data. *)
Example targets_fixers_shapes :
  (t ← HeroSection.targets (Samples.hero_data JUndef); Ok (HeroSection.fixers t))
    = Ok (JNum 31)
  /\ (t ← HeroSection.targets (Samples.hero_data (obj [("name", JStr "fixers")]));
      Ok (HeroSection.fixers t)) = Ok (JNum 31)
  /\ (t ← HeroSection.targets (Samples.hero_data (obj [("total_fixers", JNum 0)]));
      Ok (HeroSection.fixers t)) = Ok (JNum 31)
  /\ (t ← HeroSection.targets (Samples.hero_data (obj [("total_fixers", JNum 12)]));
      Ok (HeroSection.fixers t)) = Ok (JNum 12).
Proof. repeat split; vm_compute; reflexivity. Qed.

(* ================================================================== *)
(** * Properties of rounding to a double *)
(* ================================================================== *)

Section Binary64Props.
Import Binary64.

Lemma two_neq_0 : ~ (2 == 0)%Q.
Proof. intros H; discriminate H. Qed.

Lemma pow2_pos (e : Z) : (0 < pow2 e)%Q.
Proof. apply Qpower_0_lt; reflexivity. Qed.

Lemma pow2_add (a b : Z) : (pow2 (a + b) == pow2 a * pow2 b)%Q.
Proof. apply Qpower_plus, two_neq_0. Qed.

Lemma pow2_le (a b : Z) : a <= b -> (pow2 a <= pow2 b)%Q.
Proof. intros H; apply Qpower_le_compat_l; [exact H | discriminate]. Qed.


Lemma pow2_inject (n : Z) : 0 <= n -> (pow2 n == inject_Z (2 ^ n))%Q.
Proof. intros H; unfold pow2; rewrite Zpower_Qpower by exact H; reflexivity. Qed.

Lemma pow2_succ (a : Z) : (pow2 (a + 1) == 2 * pow2 a)%Q.
Proof. rewrite pow2_add; change (pow2 1) with 2%Q; ring. Qed.

Lemma ilog2_spec (x : Q) :
  (0 < x)%Q -> (pow2 (ilog2 x) <= x)%Q /\ (x < pow2 (ilog2 x + 1))%Q.
Proof.
  intros Hx. destruct x as [n d]. unfold ilog2; cbn [Qnum Qden].
  assert (Hn : 0 < n) by (unfold Qlt in Hx; cbn in Hx; lia).
  set (a := Z.log2 n). set (b := Z.log2 (Z.pos d)).
  destruct (Z.log2_spec n Hn) as [Ha1 Ha2]; fold a in Ha1, Ha2.
  destruct (Z.log2_spec (Z.pos d) eq_refl) as [Hb1 Hb2]; fold b in Hb1, Hb2.
  assert (Ha0 : 0 <= a) by apply Z.log2_nonneg.
  assert (Hb0 : 0 <= b) by apply Z.log2_nonneg.
  assert (Hxd : ((n # d) * inject_Z (Z.pos d) == inject_Z n)%Q).
  { unfold Qeq, Qmult, inject_Z; cbn. lia. }
  assert (Hd : (0 < inject_Z (Z.pos d))%Q) by reflexivity.
  assert (Qa1 : (pow2 a <= inject_Z n)%Q).
  { rewrite pow2_inject by lia. rewrite <- Zle_Qle. exact Ha1. }
  assert (Qa2 : (inject_Z n < pow2 (a + 1))%Q).
  { rewrite pow2_inject by lia. rewrite <- Zlt_Qlt. replace (a + 1) with (Z.succ a) by lia. exact Ha2. }
  assert (Qb1 : (pow2 b <= inject_Z (Z.pos d))%Q).
  { rewrite pow2_inject by lia. rewrite <- Zle_Qle. exact Hb1. }
  assert (Qb2 : (inject_Z (Z.pos d) < pow2 (b + 1))%Q).
  { rewrite pow2_inject by lia. rewrite <- Zlt_Qlt. replace (b + 1) with (Z.succ b) by lia. exact Hb2. }
  pose proof (pow2_pos (a - b)) as Hl.
  pose proof (pow2_pos b) as Hpb.
  assert (Eab : (pow2 a == pow2 (a - b) * pow2 b)%Q).
  { rewrite <- pow2_add. replace (a - b + b) with a by lia. reflexivity. }
  destruct (Qle_bool (pow2 (a - b)) (n # d)) eqn:E.
  - apply Qle_bool_iff in E. split; [exact E|].
    rewrite pow2_succ.
    apply Qmult_lt_r with (z := inject_Z (Z.pos d)); [exact Hd|].
    rewrite Hxd. rewrite pow2_succ in Qa2. rewrite Eab in Qa2.
    nra.
  - assert (E' : (n # d < pow2 (a - b))%Q).
    { apply Qnot_le_lt. intros H. apply Qle_bool_iff in H. congruence. }
    replace (a - b - 1 + 1) with (a - b) by lia. split; [|exact E'].
    assert (E1 : (pow2 (a - b) == 2 * pow2 (a - b - 1))%Q).
    { rewrite <- pow2_succ. replace (a - b - 1 + 1) with (a - b) by lia. reflexivity. }
    pose proof (pow2_pos (a - b - 1)) as Hl1.
    rewrite pow2_succ in Qb2.
    apply Qmult_le_r with (z := inject_Z (Z.pos d)); [exact Hd|].
    rewrite Hxd. rewrite Eab, E1 in Qa1. nra.
Qed.

Lemma ilog2_unique (x : Q) (l : Z) :
  (pow2 l <= x)%Q -> (x < pow2 (l + 1))%Q -> ilog2 x = l.
Proof.
  intros H1 H2.
  assert (Hx : (0 < x)%Q) by (pose proof (pow2_pos l); lra).
  destruct (ilog2_spec x Hx) as [H3 H4].
  destruct (Z.lt_trichotomy (ilog2 x) l) as [H | [H | H]]; [|exact H|].
  - pose proof (pow2_le (ilog2 x + 1) l ltac:(lia)). lra.
  - pose proof (pow2_le (l + 1) (ilog2 x) ltac:(lia)). lra.
Qed.

Lemma ilog2_mono (x y : Q) : (0 < x)%Q -> (x <= y)%Q -> ilog2 x <= ilog2 y.
Proof.
  intros Hx Hxy.
  destruct (ilog2_spec x Hx) as [H1 H2].
  destruct (ilog2_spec y ltac:(lra)) as [H3 H4].
  destruct (Z_le_gt_dec (ilog2 x) (ilog2 y)) as [H | H]; [exact H|].
  pose proof (pow2_le (ilog2 y + 1) (ilog2 x) ltac:(lia)). lra.
Qed.

Lemma ilog2_eq (x y : Q) : (0 < x)%Q -> (x == y)%Q -> ilog2 x = ilog2 y.
Proof.
  intros Hx E. destruct (ilog2_spec x Hx) as [H1 H2].
  symmetry. apply ilog2_unique; rewrite <- E; assumption.
Qed.

Lemma exponent_eq (x y : Q) : (0 < x)%Q -> (x == y)%Q -> exponent x = exponent y.
Proof. intros Hx E. unfold exponent. rewrite (ilog2_eq x y Hx E). reflexivity. Qed.

Lemma exponent_mono (x y : Q) : (0 < x)%Q -> (x <= y)%Q -> exponent x <= exponent y.
Proof. intros Hx Hxy. unfold exponent. pose proof (ilog2_mono x y Hx Hxy). lia. Qed.

(** ** Rounding to an integer *)

Lemma rne_cases (s : Q) :
  let f := Qfloor s in
  (rne s = f /\ (s - inject_Z f <= 1 # 2)%Q) \/ (rne s = f + 1 /\ (1 # 2 <= s - inject_Z f)%Q).
Proof.
  intros f. unfold rne. fold f. clearbody f.
  destruct (Qcompare_spec (s - inject_Z f) (1 # 2)) as [E | E | E].
  - destruct (Z.even f); [left | right]; (split; [reflexivity | lra]).
  - left; split; [reflexivity | lra].
  - right; split; [reflexivity | lra].
Qed.

Lemma rne_error (s : Q) : (s - (1 # 2) <= inject_Z (rne s) <= s + (1 # 2))%Q.
Proof.
  pose proof (Qfloor_le s) as H1. pose proof (Qlt_floor s) as H2.
  rewrite inject_Z_plus in H2. change (inject_Z 1) with 1%Q in H2.
  destruct (rne_cases s) as [[-> H] | [-> H]];
    [|rewrite inject_Z_plus; change (inject_Z 1) with 1%Q]; lra.
Qed.

Lemma rne_comp (s t : Q) : (s == t)%Q -> rne s = rne t.
Proof.
  intros E. unfold rne. rewrite (Qfloor_comp s t E).
  rewrite (Qcompare_comp (s - inject_Z (Qfloor t))%Q (t - inject_Z (Qfloor t))%Q
             ltac:(rewrite E; reflexivity) (1 # 2) (1 # 2) ltac:(reflexivity)).
  reflexivity.
Qed.

Lemma rne_Z (n : Z) : rne (inject_Z n) = n.
Proof.
  unfold rne. rewrite Qfloor_Z.
  destruct (Qcompare_spec (inject_Z n - inject_Z n) (1 # 2)) as [E | E | E];
    [lra | reflexivity | lra].
Qed.

Lemma rne_mono (s t : Q) : (s <= t)%Q -> rne s <= rne t.
Proof.
  intros Hst.
  pose proof (Qfloor_resp_le s t Hst) as Hf.
  destruct (Z.eq_dec (Qfloor s) (Qfloor t)) as [E | NE].
  - unfold rne. rewrite <- E.
    destruct (Qcompare_spec (s - inject_Z (Qfloor s)) (1 # 2)) as [E1 | E1 | E1];
    destruct (Qcompare_spec (t - inject_Z (Qfloor s)) (1 # 2)) as [E2 | E2 | E2];
    try destruct (Z.even (Qfloor s)); try lia; lra.
  - destruct (rne_cases s) as [[-> _] | [-> _]];
    destruct (rne_cases t) as [[-> _] | [-> _]]; lia.
Qed.

Lemma rne_ge (s : Q) (n : Z) : (inject_Z n <= s)%Q -> n <= rne s.
Proof. intros H. rewrite <- (rne_Z n). apply rne_mono, H. Qed.

Lemma rne_le (s : Q) (n : Z) : (s <= inject_Z n)%Q -> rne s <= n.
Proof. intros H. rewrite <- (rne_Z n). apply rne_mono, H. Qed.

(** ** Rounding of positive numbers *)

Lemma pow2_scaled (x : Q) (e : Z) : (x / pow2 e * pow2 e == x)%Q.
Proof. pose proof (pow2_pos e). field. lra. Qed.

Lemma round_pos_eq (x y : Q) : (0 < x)%Q -> (x == y)%Q -> (round_pos x == round_pos y)%Q.
Proof.
  intros Hx E. unfold round_pos. rewrite <- (exponent_eq x y Hx E).
  generalize (exponent x); intros e.
  assert (Er : rne (x / pow2 e) = rne (y / pow2 e)).
  { apply rne_comp. rewrite E. reflexivity. }
  rewrite Er. reflexivity.
Qed.

Lemma round_pos_nonneg (x : Q) : (0 < x)%Q -> (0 <= round_pos x)%Q.
Proof.
  intros Hx. unfold round_pos. pose proof (pow2_pos (exponent x)) as Hp.
  assert (H : 0 <= rne (x / pow2 (exponent x))).
  { apply rne_ge. apply Qle_shift_div_l; [exact Hp | change (inject_Z 0) with 0%Q; lra]. }
  rewrite Zle_Qle in H. change (inject_Z 0) with 0%Q in H. nra.
Qed.

Lemma round_pos_error (x : Q) :
  (0 < x)%Q ->
  (x - (1 # 2) * pow2 (exponent x) <= round_pos x <= x + (1 # 2) * pow2 (exponent x))%Q.
Proof.
  intros Hx. unfold round_pos. set (e := exponent x).
  pose proof (pow2_pos e) as Hp.
  pose proof (rne_error (x / pow2 e)) as [H1 H2].
  pose proof (pow2_scaled x e) as Hs.
  set (s := (x / pow2 e)%Q) in *. set (r := inject_Z (rne s)) in *.
  clearbody r. clearbody s. clearbody e.
  assert (A : (0 <= (r - (s - (1 # 2))) * pow2 e)%Q) by (apply Qmult_le_0_compat; lra).
  assert (B : (0 <= (s + (1 # 2) - r) * pow2 e)%Q) by (apply Qmult_le_0_compat; lra).
  split; lra.
Qed.

Lemma round_pos_upper (x : Q) : (0 < x)%Q -> (round_pos x <= pow2 (exponent x + 53))%Q.
Proof.
  intros Hx. unfold round_pos. set (e := exponent x).
  pose proof (pow2_pos e) as Hp.
  destruct (ilog2_spec x Hx) as [_ H2].
  assert (He : ilog2 x + 1 <= e + 53) by (unfold e, exponent; lia).
  pose proof (pow2_le _ _ He) as H3.
  rewrite (pow2_add e 53) in H3 |- *. rewrite (pow2_inject 53) in H3 |- * by lia.
  assert (H : rne (x / pow2 e) <= 2 ^ 53).
  { apply rne_le. apply Qle_shift_div_r; [exact Hp | lra]. }
  rewrite Zle_Qle in H. clearbody e. nra.
Qed.

Lemma round_pos_lower (x : Q) :
  (0 < x)%Q -> -1074 < exponent x -> (pow2 (exponent x + 52) <= round_pos x)%Q.
Proof.
  intros Hx He. unfold round_pos. set (e := exponent x) in *.
  pose proof (pow2_pos e) as Hp.
  destruct (ilog2_spec x Hx) as [H1 _].
  assert (E : ilog2 x = e + 52) by (unfold e, exponent in *; lia).
  rewrite E in H1.
  rewrite (pow2_add e 52) in H1 |- *. rewrite (pow2_inject 52) in H1 |- * by lia.
  assert (H : 2 ^ 52 <= rne (x / pow2 e)).
  { apply rne_ge. apply Qle_shift_div_l; [exact Hp | lra]. }
  rewrite Zle_Qle in H. clearbody e. nra.
Qed.

Lemma round_pos_mono (x y : Q) : (0 < x)%Q -> (x <= y)%Q -> (round_pos x <= round_pos y)%Q.
Proof.
  intros Hx Hxy.
  pose proof (exponent_mono x y Hx Hxy) as He.
  destruct (Z.eq_dec (exponent x) (exponent y)) as [E | NE].
  - unfold round_pos. rewrite <- E. pose proof (pow2_pos (exponent x)) as Hp.
    assert (H : rne (x / pow2 (exponent x)) <= rne (y / pow2 (exponent x))).
    { apply rne_mono. apply Qmult_le_compat_r; [exact Hxy|].
      apply Qlt_le_weak, Qinv_lt_0_compat, Hp. }
    rewrite Zle_Qle in H. nra.
  - pose proof (round_pos_upper x Hx) as H1.
    assert (H0 : -1074 <= exponent x) by (unfold exponent; lia).
    pose proof (round_pos_lower y ltac:(lra) ltac:(lia)) as H2.
    pose proof (pow2_le (exponent x + 53) (exponent y + 52) ltac:(lia)). lra.
Qed.

(** A number with no bit below the last place of its double is a double. *)
Lemma round_pos_exact (x : Q) (m c : Z) :
  (0 < x)%Q -> (x == inject_Z m * pow2 c)%Q -> exponent x <= c -> (round_pos x == x)%Q.
Proof.
  intros Hx E Hc. unfold round_pos. set (e := exponent x) in *.
  pose proof (pow2_pos e) as Hp.
  assert (Es : (x / pow2 e == inject_Z (m * 2 ^ (c - e)))%Q).
  { rewrite inject_Z_mult, <- pow2_inject by lia. rewrite E.
    replace c with ((c - e) + e) at 1 by lia. rewrite pow2_add. field. lra. }
  rewrite (rne_comp _ _ Es), rne_Z, <- Es. apply pow2_scaled.
Qed.

(** ** Rounding *)

Lemma round_comp (x y : Q) : (x == y)%Q -> (round x == round y)%Q.
Proof.
  intros E. unfold round. rewrite <- E.
  destruct (Qcompare_spec x 0) as [H | H | H].
  - reflexivity.
  - apply Qopp_comp. apply round_pos_eq; [lra | rewrite E; reflexivity].
  - apply round_pos_eq; assumption.
Qed.

Lemma round_0 : (round 0 == 0)%Q.
Proof. reflexivity. Qed.

Lemma round_of_pos (x : Q) : (0 < x)%Q -> round x = round_pos x.
Proof. intros H. unfold round. destruct (Qcompare_spec x 0); [lra | lra | reflexivity]. Qed.

Lemma round_opp (x : Q) : (round (- x) == - round x)%Q.
Proof.
  unfold round.
  destruct (Qcompare_spec x 0) as [H | H | H];
  destruct (Qcompare_spec (- x) 0) as [H' | H' | H']; try lra.
  apply Qopp_comp, round_pos_eq; [lra | ring].
Qed.

Lemma round_nonneg (x : Q) : (0 <= x)%Q -> (0 <= round x)%Q.
Proof.
  intros Hx. unfold round.
  destruct (Qcompare_spec x 0) as [H | H | H]; try lra.
  apply round_pos_nonneg, H.
Qed.

Lemma round_mono (x y : Q) : (x <= y)%Q -> (round x <= round y)%Q.
Proof.
  intros Hxy. unfold round.
  destruct (Qcompare_spec x 0) as [Hx | Hx | Hx];
  destruct (Qcompare_spec y 0) as [Hy | Hy | Hy]; try lra.
  - apply round_pos_nonneg, Hy.
  - pose proof (round_pos_nonneg (- x) ltac:(lra)). lra.
  - apply Qopp_le_compat. apply round_pos_mono; lra.
  - pose proof (round_pos_nonneg (- x) ltac:(lra)).
    pose proof (round_pos_nonneg y Hy). lra.
  - apply round_pos_mono; assumption.
Qed.

Lemma round_exact (x : Q) (m c : Z) :
  (0 < x)%Q -> (x == inject_Z m * pow2 c)%Q -> exponent x <= c -> (round x == x)%Q.
Proof. intros Hx E Hc. rewrite round_of_pos by exact Hx. exact (round_pos_exact x m c Hx E Hc). Qed.

Lemma round_error (x : Q) :
  (0 < x)%Q ->
  (x - (1 # 2) * pow2 (exponent x) <= round x <= x + (1 # 2) * pow2 (exponent x))%Q.
Proof. intros Hx. rewrite round_of_pos by exact Hx. exact (round_pos_error x Hx). Qed.

(** Integers of magnitude below [2^53] are doubles. *)
Lemma round_Z (n : Z) : Z.abs n < 2 ^ 53 -> (round (inject_Z n) == inject_Z n)%Q.
Proof.
  assert (P : forall p : Z, 0 < p < 2 ^ 53 -> (round (inject_Z p) == inject_Z p)%Q).
  { intros p Hp. apply (round_exact _ p 0).
    - rewrite <- (Zlt_Qlt 0). lia.
    - change (pow2 0) with 1%Q. ring.
    - assert (H : ilog2 (inject_Z p) <= 52).
      { destruct (ilog2_spec (inject_Z p)) as [H1 _]; [rewrite <- (Zlt_Qlt 0); lia|].
        destruct (Z_le_gt_dec (ilog2 (inject_Z p)) 52) as [H | H]; [exact H|].
        pose proof (pow2_le 53 (ilog2 (inject_Z p)) ltac:(lia)) as H2.
        rewrite (pow2_inject 53) in H2 by lia.
        assert (H3 : (inject_Z (2 ^ 53) <= inject_Z p)%Q) by lra.
        rewrite <- Zle_Qle in H3. lia. }
      unfold exponent. lia. }
  intros Hn. destruct (Z.lt_trichotomy n 0) as [H | [-> | H]].
  - assert (E : (inject_Z n == - inject_Z (- n))%Q) by (rewrite inject_Z_opp; ring).
    rewrite (round_comp _ _ E), round_opp, P by lia. rewrite inject_Z_opp. ring.
  - reflexivity.
  - apply P. lia.
Qed.

Lemma ilog2_below (x : Q) (l : Z) : (0 < x)%Q -> (x < pow2 l)%Q -> ilog2 x < l.
Proof.
  intros Hx Hl. destruct (ilog2_spec x Hx) as [H1 _].
  destruct (Z_lt_ge_dec (ilog2 x) l) as [H | H]; [exact H|].
  pose proof (pow2_le l (ilog2 x) ltac:(lia)). lra.
Qed.

Lemma exponent_below (x : Q) (l : Z) :
  (0 < x)%Q -> (x < pow2 l)%Q -> -1021 <= l -> exponent x <= l - 53.
Proof. intros Hx Hl Hr. pose proof (ilog2_below x l Hx Hl). unfold exponent. lia. Qed.

(** The error of one rounding, for a positive number below [2^l]. *)
Lemma round_error_below (x : Q) (l : Z) :
  (0 < x)%Q -> (x < pow2 l)%Q -> -1021 <= l ->
  (x - pow2 (l - 54) <= round x <= x + pow2 (l - 54))%Q.
Proof.
  intros Hx Hl Hr.
  pose proof (round_error x Hx) as [H1 H2].
  pose proof (pow2_le _ _ (exponent_below x l Hx Hl Hr)) as H3.
  assert (E : (pow2 (l - 53) == 2 * pow2 (l - 54))%Q).
  { rewrite <- pow2_succ. replace (l - 54 + 1) with (l - 53) by lia. reflexivity. }
  split; lra.
Qed.

Lemma Qfloor_between (x : Q) (lo hi : Z) :
  (inject_Z lo <= x)%Q -> (x < inject_Z hi + 1)%Q -> lo <= Qfloor x <= hi.
Proof.
  intros H1 H2. pose proof (Qfloor_le x) as H3. pose proof (Qlt_floor x) as H4.
  rewrite inject_Z_plus in H4. change (inject_Z 1) with 1%Q in H4.
  assert (A : (inject_Z lo < inject_Z (Qfloor x) + 1)%Q) by lra.
  assert (B : (inject_Z (Qfloor x) < inject_Z hi + 1)%Q) by lra.
  change 1%Q with (inject_Z 1) in A, B. rewrite <- inject_Z_plus in A, B.
  rewrite <- Zlt_Qlt in A, B. lia.
Qed.

Lemma round_1 : (round 1 == 1)%Q.
Proof. vm_compute. reflexivity. Qed.

Lemma round_59_60 : (round (59 # 60) < 1)%Q.
Proof. vm_compute. reflexivity. Qed.

End Binary64Props.

(** Some doubles: the nearest to 1/10 and to 44/60, the ties at [2^53 + 1]
    and [2^53 + 3], and the smallest subnormal number. *)
Example round_samples :
  (Binary64.round (1 # 10) == 3602879701896397 # 36028797018963968)%Q
  /\ (Binary64.round (44 # 60) == 6605279453476727 # 9007199254740992)%Q
  /\ (Binary64.round (inject_Z (2 ^ 53 + 1)) == inject_Z (2 ^ 53))%Q
  /\ (Binary64.round (inject_Z (2 ^ 53 + 3)) == inject_Z (2 ^ 53 + 4))%Q
  /\ (Binary64.round (Binary64.pow2 (-1074)) == Binary64.pow2 (-1074))%Q
  /\ (Binary64.round ((1 # 2) * Binary64.pow2 (-1074)) == 0)%Q
  /\ (Binary64.round ((3 # 2) * Binary64.pow2 (-1074)) == Binary64.pow2 (-1073))%Q.
Proof. repeat split; vm_compute; reflexivity. Qed.

(* ================================================================== *)
(** * The Counter Animator in double precision *)
(* ================================================================== *)

Section Counter64Props.
Import HeroSection Binary64.

Lemma step_quotient (k : Z) : (inject_Z k / inject_Z steps == k # 60)%Q.
Proof. unfold Qeq, Qdiv, Qmult, Qinv, inject_Z, steps; simpl. lia. Qed.

Lemma progress64_below (k : Z) : k < steps -> (HeroSection64.progress_at k < 1)%Q.
Proof.
  intros Hk. unfold HeroSection64.progress_at.
  apply Qle_lt_trans with (round (59 # 60)); [|exact round_59_60].
  eapply Qle_trans; [apply Q.le_min_l|]. apply round_mono.
  rewrite step_quotient. unfold Qle, steps in *; simpl. lia.
Qed.

Lemma progress64_steps (k : Z) : steps <= k -> (HeroSection64.progress_at k == 1)%Q.
Proof.
  intros Hk. unfold HeroSection64.progress_at. apply Q.min_r.
  rewrite <- round_1. apply round_mono.
  rewrite step_quotient. unfold Qle, steps in *; simpl. lia.
Qed.

Lemma progress64_nonneg (k : Z) : 0 <= k -> (0 <= HeroSection64.progress_at k)%Q.
Proof.
  intros Hk. unfold HeroSection64.progress_at. apply Q.min_glb; [|discriminate].
  apply round_nonneg. rewrite step_quotient. unfold Qle; simpl. lia.
Qed.

Lemma progress64_mono (j k : Z) :
  j <= k -> (HeroSection64.progress_at j <= HeroSection64.progress_at k)%Q.
Proof.
  intros Hjk. unfold HeroSection64.progress_at. apply Q.min_le_compat_r, round_mono.
  rewrite !step_quotient. unfold Qle; simpl. lia.
Qed.

Lemma timer64_running (k : Z) : k < steps -> Qeq_bool (HeroSection64.progress_at k) 1 = false.
Proof.
  intros Hk. destruct (Qeq_bool (HeroSection64.progress_at k) 1) eqn:E; [|reflexivity].
  apply Qeq_bool_iff in E. pose proof (progress64_below k Hk). lra.
Qed.

Lemma timer64_cleared (k : Z) : steps <= k -> Qeq_bool (HeroSection64.progress_at k) 1 = true.
Proof. intros Hk. apply Qeq_bool_iff, progress64_steps, Hk. Qed.

Lemma scaled_comp (p q : Q) (target : Z) :
  (p == q)%Q -> HeroSection64.scaled p target = HeroSection64.scaled q target.
Proof.
  intros E. unfold HeroSection64.scaled, Math_floor. apply Qfloor_comp, round_comp.
  rewrite E. reflexivity.
Qed.

Lemma scaled_mono (p q : Q) (target : Z) :
  0 <= target -> (p <= q)%Q -> HeroSection64.scaled p target <= HeroSection64.scaled q target.
Proof.
  intros Ht Hpq. unfold HeroSection64.scaled, Math_floor. apply Qfloor_resp_le, round_mono.
  apply Qmult_le_compat_r; [exact Hpq|]. unfold Qle, inject_Z; simpl. lia.
Qed.

Lemma scaled_nonneg (p : Q) (target : Z) :
  0 <= target -> (0 <= p)%Q -> 0 <= HeroSection64.scaled p target.
Proof.
  intros Ht Hp. unfold HeroSection64.scaled, Math_floor.
  change 0 with (Qfloor 0). apply Qfloor_resp_le, round_nonneg.
  apply Qmult_le_0_compat; [exact Hp|]. unfold Qle, inject_Z; simpl. lia.
Qed.

Lemma scaled_1 (target : Z) :
  (round (inject_Z target) == inject_Z target)%Q -> HeroSection64.scaled 1 target = target.
Proof.
  intros Hd. unfold HeroSection64.scaled, Math_floor.
  rewrite (Qfloor_comp _ (inject_Z target)); [apply Qfloor_Z|].
  rewrite <- Hd at 2. apply round_comp. ring.
Qed.

Lemma shown64_final (target k : Z) :
  is_double (inject_Z target) -> steps <= k -> shown64 target k = target.
Proof.
  intros [Hd _] Hk. unfold shown64.
  rewrite (scaled_comp _ 1 target (progress64_steps k Hk)). apply scaled_1, Hd.
Qed.

Lemma shown64_mono (target j k : Z) :
  0 <= target -> j <= k -> shown64 target j <= shown64 target k.
Proof. intros Ht Hjk. apply scaled_mono; [exact Ht | apply progress64_mono, Hjk]. Qed.

Lemma shown64_nonneg (target k : Z) : 0 <= target -> 0 <= k -> 0 <= shown64 target k.
Proof. intros Ht Hk. apply scaled_nonneg; [exact Ht | apply progress64_nonneg, Hk]. Qed.

Lemma frame64_step (targets : Stats Z) (k : Z) : currentStep (frame64 targets k) = k.
Proof. unfold frame64, HeroSection64.interval_callback; simpl. lia. Qed.

Lemma frame64_stat (targets : Stats Z) (k : Z) (c : Counter) :
  stat c (animatedStats (frame64 targets k)) = shown64 (stat c targets) k.
Proof.
  unfold frame64, HeroSection64.interval_callback, shown64; simpl.
  replace (k - 1 + 1) with k by lia. destruct c; reflexivity.
Qed.

Lemma interval_callback64_frame (targets : Stats Z) (s : Effect) :
  HeroSection64.interval_callback targets s = frame64 targets (currentStep s + 1).
Proof.
  unfold frame64, HeroSection64.interval_callback; simpl.
  replace (currentStep s + 1 - 1 + 1) with (currentStep s + 1) by lia. reflexivity.
Qed.

Lemma frame64_timer (targets : Stats Z) (k : Z) :
  timer (frame64 targets k) = bool_decide (k < steps).
Proof.
  unfold frame64, HeroSection64.interval_callback; simpl.
  replace (k - 1 + 1) with k by lia.
  case_bool_decide.
  - rewrite timer64_running by lia. reflexivity.
  - rewrite timer64_cleared by lia. reflexivity.
Qed.

Lemma firings64_frames (targets : Stats Z) (m : nat) :
  forall (periods : nat) (s : Effect),
    (S m <= periods)%nat ->
    currentStep s + Z.of_nat (S m) = steps ->
    timer s = true ->
    HeroSection64.firings targets periods s =
      (fun i : nat => frame64 targets (currentStep s + 1 + Z.of_nat i)) <$> seq 0 (S m).
Proof.
  induction m as [|m IH]; intros periods s Hp Hm Ht;
    (destruct periods as [|periods]; [lia|]);
    simpl HeroSection64.firings; rewrite Ht, interval_callback64_frame;
    rewrite <- (cons_seq _ 0), fmap_cons; change (Z.of_nat 0) with 0;
    rewrite Z.add_0_r; f_equal.
  - destruct periods as [|periods']; [reflexivity|]. cbn [HeroSection64.firings].
    rewrite frame64_timer. rewrite bool_decide_eq_false_2 by lia. reflexivity.
  - rewrite IH.
    + rewrite <- (fmap_S_seq 0), <- list_fmap_compose. apply list_fmap_ext.
      intros i x _. unfold compose. rewrite frame64_step. f_equal. lia.
    + lia.
    + rewrite frame64_step. lia.
    + rewrite frame64_timer. apply bool_decide_eq_true_2. lia.
Qed.

Lemma displayed64_frames (targets : Stats Z) (periods : nat) :
  (60 <= periods)%nat ->
  HeroSection64.displayed targets periods =
    animatedStats mount ::
    ((fun i : nat => animatedStats (frame64 targets (1 + Z.of_nat i))) <$> seq 0 60).
Proof.
  intros Hp. unfold HeroSection64.displayed. rewrite fmap_cons. f_equal.
  rewrite (firings64_frames targets 59 periods mount Hp); reflexivity.
Qed.

Lemma displayed64_stat (targets : Stats Z) (periods : nat) (c : Counter) :
  (60 <= periods)%nat ->
  stat c <$> HeroSection64.displayed targets periods =
    0 :: ((fun i : nat => shown64 (stat c targets) (Z.of_nat i)) <$> seq 1 60).
Proof.
  intros Hp. rewrite (displayed64_frames targets periods Hp).
  rewrite fmap_cons, <- list_fmap_compose.
  rewrite <- (fmap_S_seq 0), <- list_fmap_compose.
  f_equal.
  - destruct c; reflexivity.
  - apply list_fmap_ext. intros i x _. unfold compose.
    rewrite frame64_stat. f_equal. lia.
Qed.

Lemma displayed64_last (targets : Stats Z) (periods : nat) :
  (60 <= periods)%nat ->
  exists final,
    last (HeroSection64.displayed targets periods) = Some final
    /\ forall c, is_double (inject_Z (stat c targets)) -> stat c final = stat c targets.
Proof.
  intros Hp. rewrite (displayed64_frames targets periods Hp).
  rewrite (seq_S 59 0), fmap_app, fmap_cons, fmap_nil, app_comm_cons, last_snoc.
  eexists. split; [reflexivity|]. intros c Hd.
  rewrite frame64_stat. apply shown64_final; [exact Hd|]. unfold steps. simpl. lia.
Qed.

(** The value shown at step [k] against the quotient [k * T / 60] of the
    integers. *)
Lemma shown64_ideal (T k : Z) :
  0 <= T < 2 ^ 47 -> 1 <= k <= 60 ->
  (k * T) / 60 - 1 <= shown64 T k <= (k * T) / 60
  /\ ((k * T) mod 60 <> 0 -> shown64 T k = (k * T) / 60).
Proof.
  intros HT Hk.
  destruct (Z.eq_dec k 60) as [-> | Hk60].
  { rewrite shown64_final.
    - replace (60 * T) with (T * 60) by lia. rewrite Z.div_mul by lia. lia.
    - split; [apply round_Z; lia|].
      rewrite Qabs_pos by (rewrite <- (Zle_Qle 0); lia).
      rewrite (pow2_inject 1024) by lia. rewrite <- Zlt_Qlt.
      apply Z.lt_trans with (2 ^ 47); [lia|]. apply Z.pow_lt_mono_r; lia.
    - unfold steps; lia. }
  destruct (Z.eq_dec T 0) as [-> | HT0].
  { unfold shown64, HeroSection64.scaled, Math_floor.
    rewrite (Qfloor_comp _ 0);
      [|transitivity (round 0); [apply round_comp; change (inject_Z 0) with 0%Q; ring | reflexivity]].
    rewrite Z.mul_0_r. unfold Qfloor; simpl. rewrite !Z.div_0_l by lia. clear HT. lia. }
  set (N := (k * T) / 60). set (r := (k * T) mod 60).
  pose proof (Z.div_mod (k * T) 60 ltac:(lia)) as Hdiv. fold N r in Hdiv.
  pose proof (Z.mod_pos_bound (k * T) 60 ltac:(lia)) as Hr. fold r in Hr.
  set (t := inject_Z T).
  assert (Ht1 : (1 <= t)%Q).
  { unfold t. change 1%Q with (inject_Z 1). rewrite <- Zle_Qle. lia. }
  set (a := (k # 60)%Q).
  assert (Ha1 : (1 # 60 <= a)%Q) by (unfold a, Qle; simpl; lia).
  assert (Ha2 : (a <= 59 # 60)%Q) by (unfold a, Qle; simpl; lia).
  assert (Eat : (a * t == inject_Z N + inject_Z r * (1 # 60))%Q).
  { unfold a, t, Qeq, Qmult, Qplus, inject_Z; simpl. lia. }
  set (p0 := round (inject_Z k / inject_Z steps)).
  assert (Hp0 : (a - (1 # 18014398509481984) <= p0 <= a + (1 # 18014398509481984))%Q).
  { assert (E54 : (pow2 (0 - 54) == 1 # 18014398509481984)%Q) by reflexivity.
    rewrite <- E54. unfold p0. rewrite (round_comp _ a (step_quotient k)).
    apply (round_error_below a 0); [lra | change (pow2 0) with 1%Q; lra | lia]. }
  assert (Hp1 : (p0 < 1)%Q).
  { unfold p0. apply Qle_lt_trans with (round (59 # 60)); [|exact round_59_60].
    apply round_mono. rewrite step_quotient. exact Ha2. }
  assert (Hmin : (HeroSection64.progress_at k == p0)%Q).
  { unfold HeroSection64.progress_at. fold p0. apply Q.min_l. lra. }
  unfold shown64. rewrite (scaled_comp _ p0 T Hmin).
  unfold HeroSection64.scaled, Math_floor. fold t.
  assert (Ht2 : (t < 140737488355328)%Q).
  { unfold t. change 140737488355328%Q with (inject_Z 140737488355328).
    rewrite <- Zlt_Qlt. change 140737488355328 with (2 ^ 47). lia. }
  assert (P1 : (0 <= (p0 - (a - (1 # 18014398509481984))) * t)%Q)
    by (apply Qmult_le_0_compat; lra).
  assert (P2 : (0 <= ((a + (1 # 18014398509481984)) - p0) * t)%Q)
    by (apply Qmult_le_0_compat; lra).
  assert (P3 : (0 < p0 * t)%Q) by (apply Qmult_lt_0_compat; lra).
  assert (P4 : (p0 * t < pow2 47)%Q).
  { assert (H : (0 <= (1 - p0) * t)%Q) by (apply Qmult_le_0_compat; lra).
    assert (E47 : (pow2 47 == 140737488355328)%Q) by reflexivity.
    lra. }
  pose proof (round_error_below (p0 * t) 47 P3 P4 ltac:(lia)) as [Hy1 Hy2].
  assert (E7 : (pow2 (47 - 54) == 1 # 128)%Q) by reflexivity.
  set (y := round (p0 * t)) in *.
  clearbody y p0 a t.
  assert (Hlo : (inject_Z N + inject_Z r * (1 # 60) - (1 # 64) <= y)%Q) by lra.
  assert (Hhi : (y <= inject_Z N + inject_Z r * (1 # 60) + (1 # 64))%Q) by lra.
  assert (Hr1 : (0 <= inject_Z r)%Q).
  { change 0%Q with (inject_Z 0). rewrite <- Zle_Qle. lia. }
  assert (Hr2 : (inject_Z r <= 59)%Q).
  { change 59%Q with (inject_Z 59). rewrite <- Zle_Qle. lia. }
  split.
  - replace (N - 1) with (N + -1) by lia.
    apply Qfloor_between.
    + rewrite inject_Z_plus. change (inject_Z (-1)) with (-1)%Q. lra.
    + lra.
  - intros Hr0.
    assert (Hr3 : (1 <= inject_Z r)%Q).
    { change 1%Q with (inject_Z 1). rewrite <- Zle_Qle. lia. }
    assert (H : N <= Qfloor y <= N); [|lia].
    apply Qfloor_between; lra.
Qed.

Lemma shown64_bounds (target k : Z) :
  0 <= target -> is_double (inject_Z target) -> 0 <= k ->
  0 <= shown64 target k <= target.
Proof.
  intros Ht Hd Hk. split; [apply shown64_nonneg; assumption|].
  rewrite <- (shown64_final target (Z.max k steps) Hd ltac:(lia)) at 2.
  apply shown64_mono; [exact Ht | lia].
Qed.

Lemma shown_quotient (target k : Z) :
  0 <= k <= steps -> shown target k = (k * target) / 60.
Proof.
  intros Hk. destruct (Z.eq_dec k steps) as [-> | Hne].
  - rewrite shown_final by lia. unfold steps.
    replace (60 * target) with (target * 60) by lia. rewrite Z.div_mul by lia. reflexivity.
  - unfold shown, Math_floor.
    rewrite (Qfloor_comp _ ((k * target) # 60)); [reflexivity|].
    rewrite (progress_at_lt k ltac:(lia)).
    unfold Qeq, Qdiv, Qmult, Qinv, inject_Z, steps; simpl. lia.
Qed.

(** The frames of the exact computation against those in double precision:
    for a target below [2^47] they are the same, except that the double
    one is one less at some of the steps [k] where 60 divides [k * T]. *)
Lemma displayed_exact_and_double (targets : Stats Z) (c : Counter) (periods : nat) :
  0 <= stat c targets < 2 ^ 47 ->
  (60 <= periods)%nat ->
  Forall2 (fun v64 v => v - 1 <= v64 <= v)
    (stat c <$> HeroSection64.displayed targets periods)
    (stat c <$> HeroSection.displayed targets periods).
Proof.
  intros HT Hp.
  rewrite (displayed64_stat targets periods c Hp), (displayed_stat targets periods c Hp).
  change (seq 0 61) with (0%nat :: seq 1 60). rewrite fmap_cons.
  change (Z.of_nat 0) with 0. rewrite shown_0.
  constructor; [lia|].
  apply Forall2_fmap, Forall2_same_length_lookup. split; [reflexivity|].
  intros i x y Hx Hy. rewrite Hx in Hy. injection Hy as <-.
  apply lookup_seq in Hx as [-> Hi].
  rewrite shown_quotient by (unfold steps; lia).
  apply shown64_ideal; lia.
Qed.


End Counter64Props.



(** The frames of the Clusters counter for the targets 67 and 75 in double
    precision.  For 67 they are those of the exact computation; for 75 the
    frame of step 44 is 54. *)
Example displayed64_clusters :
  stat Clusters <$> HeroSection64.displayed Samples.hero_targets 100%nat
    = stat Clusters <$> HeroSection.displayed Samples.hero_targets 100%nat
  /\ stat Clusters <$> HeroSection64.displayed Samples.targets_75 100%nat =
    [0; 1; 2; 3; 5; 6; 7; 8; 10; 11; 12; 13; 15; 16; 17; 18; 20; 21; 22;
     23; 25; 26; 27; 28; 30; 31; 32; 33; 35; 36; 37; 38; 40; 41; 42; 43;
     45; 46; 47; 48; 50; 51; 52; 53; 54; 56; 57; 58; 60; 61; 62; 63; 65;
     66; 67; 68; 70; 71; 72; 73; 75].
Proof. split; vm_compute; reflexivity. Qed.

(* ================================================================== *)
(** * Properties of number formatting *)
(* ================================================================== *)

Section Format64Props.
Import HeroSection Binary64 HeroSection64.

Lemma string_of_list_ascii_app (a b : list ascii) :
  string_of_list_ascii (a ++ b) = string_of_list_ascii a +:+ string_of_list_ascii b.
Proof. induction a as [|x a IH]; simpl; [reflexivity | rewrite IH; reflexivity]. Qed.

Lemma length_string_of_list_ascii (a : list ascii) :
  String.length (string_of_list_ascii a) = length a.
Proof. induction a as [|x a IH]; simpl; [reflexivity | rewrite IH; reflexivity]. Qed.

Lemma append_empty_r (s : string) : s +:+ "" = s.
Proof.
  induction s as [|x s IH]; [reflexivity|].
  change (String x (s +:+ "") = String x s). rewrite IH. reflexivity.
Qed.

Lemma concat_empty_separator (groups : list (list ascii)) :
  String.concat "" (string_of_list_ascii <$> groups) = string_of_list_ascii (concat groups).
Proof.
  induction groups as [|g gs IH]; [reflexivity|].
  rewrite fmap_cons. cbn [concat]. rewrite string_of_list_ascii_app, <- IH.
  destruct gs as [|g' gs]; [|reflexivity].
  simpl. rewrite append_empty_r. reflexivity.
Qed.

Lemma groups3_spec (n : nat) :
  forall l : list ascii, (length l <= n)%nat -> l <> [] ->
    concat (rev (groups3 l)) = rev l
    /\ exists g gs, rev (groups3 l) = g :: gs
         /\ (1 <= length g <= 3)%nat
         /\ Forall (fun g' : list ascii => length g' = 3%nat) gs.
Proof.
  induction n as [|n IH]; intros l Hn Hl.
  - destruct l; [contradiction | simpl in Hn; lia].
  - destruct l as [|a [|b [|c [|d rest]]]]; [contradiction | | | |].
    + split; [reflexivity|]. exists [a], []. repeat split; simpl; try lia; constructor.
    + split; [reflexivity|]. exists [b; a], []. repeat split; simpl; try lia; constructor.
    + split; [reflexivity|]. exists [c; b; a], []. repeat split; simpl; try lia; constructor.
    + destruct (IH (d :: rest)) as (Hc & g & gs & Hg & Hlen & Hall);
        [simpl in *; lia | discriminate |].
      change (groups3 (a :: b :: c :: d :: rest))
        with ([c; b; a] :: groups3 (d :: rest)).
      change (rev ([c; b; a] :: groups3 (d :: rest)))
        with (rev (groups3 (d :: rest)) ++ [[c; b; a]]).
      split.
      * rewrite concat_app, Hc. simpl. rewrite <- !app_assoc. reflexivity.
      * exists g, (gs ++ [[c; b; a]]). rewrite Hg. split; [reflexivity|].
        split; [exact Hlen|]. apply Forall_app. split; [exact Hall|].
        constructor; [reflexivity | constructor].
Qed.

Lemma digits_nonempty (n : Z) : list_ascii_of_string (digits n) <> [].
Proof.
  unfold digits. destruct (N.to_uint (Z.to_N n)); simpl; discriminate.
Qed.

(** The text of an integer is its sign, then the digits of its magnitude in
    groups of thousands joined by the separator. *)
Lemma toLocaleString_thousands (group_separator : string) (n : Z) :
  exists groups,
    toLocaleString group_separator n
      = (if 0 <=? n then "" else "-") +:+ String.concat group_separator groups
    /\ String.concat "" groups = digits (Z.abs n)
    /\ thousands groups.
Proof.
  unfold toLocaleString.
  set (l := rev (list_ascii_of_string (digits (Z.abs n)))).
  assert (Hl : l <> []).
  { unfold l. intros E. apply (f_equal (@rev ascii)) in E.
    rewrite rev_involutive in E. exact (digits_nonempty _ E). }
  destruct (groups3_spec (length l) l (le_n _) Hl) as (Hc & g & gs & Hg & Hlen & Hall).
  exists (string_of_list_ascii <$> rev (groups3 l)).
  split; [|split].
  - f_equal. f_equal. unfold fmap, list_fmap.
    rewrite <- (map_rev string_of_list_ascii). reflexivity.
  - rewrite concat_empty_separator, Hc. unfold l. rewrite rev_involutive.
    apply string_of_list_ascii_of_string.
  - rewrite Hg, fmap_cons. simpl. rewrite length_string_of_list_ascii.
    split; [exact Hlen|]. apply Forall_fmap. eapply Forall_impl; [exact Hall|].
    intros g' Hg'. simpl. rewrite length_string_of_list_ascii. exact Hg'.
Qed.

(** The quotient by 1000 of a non-negative integer below [2^53], rounded
    to a double: the rounding does not move it across a half, so the
    nearest integer is that of the quotient itself. *)
Lemma nearest_quotient (p : Z) :
  0 <= p < 2 ^ 53 ->
  Qfloor (round (inject_Z p / 1000) + (1 # 2)) = (p + 500) / 1000.
Proof.
  intros Hp.
  set (x := (inject_Z p / 1000)%Q).
  set (q := (p + 500) / 1000). set (r := (p + 500) mod 1000).
  pose proof (Z.div_mod (p + 500) 1000 ltac:(lia)) as Hdiv. fold q r in Hdiv.
  pose proof (Z.mod_pos_bound (p + 500) 1000 ltac:(lia)) as Hr. fold r in Hr.
  assert (Ex : (x + (1 # 2) == inject_Z q + inject_Z r * (1 # 1000))%Q).
  { unfold x, Qeq, Qdiv, Qmult, Qinv, Qplus, inject_Z; simpl. lia. }
  destruct (Z.eq_dec p 0) as [E0 | Hp0].
  { unfold x, q. rewrite E0. reflexivity. }
  assert (Hxpos : (0 < x)%Q).
  { unfold x, Qlt, Qdiv, Qmult, Qinv, inject_Z; simpl. lia. }
  assert (Hx44 : (x < pow2 44)%Q).
  { assert (E : (pow2 44 == 17592186044416)%Q) by reflexivity. rewrite E.
    unfold x, Qlt, Qdiv, Qmult, Qinv, inject_Z; simpl.
    change (2 ^ 53) with 9007199254740992 in Hp. lia. }
  assert (H : q <= Qfloor (round x + (1 # 2)) <= q); [|lia].
  destruct (Z.eq_dec r 0) as [Hr0 | Hr0].
  - (* the quotient ends in one half, which is a double *)
    assert (Exact : (round x == x)%Q).
    { apply (round_exact x (2 * q - 1) (-1) Hxpos).
      - change (pow2 (-1)) with (1 # 2)%Q.
        unfold x, Qeq, Qdiv, Qmult, Qinv, inject_Z; simpl. lia.
      - pose proof (exponent_below x 44 Hxpos Hx44 ltac:(lia)). lia. }
    rewrite (Qfloor_comp _ (inject_Z q)); [rewrite Qfloor_Z; lia|].
    rewrite Exact, Ex, Hr0. change (inject_Z 0) with 0%Q. ring.
  - pose proof (round_error_below x 44 Hxpos Hx44 ltac:(lia)) as [Hy1 Hy2].
    assert (E10 : (pow2 (44 - 54) == 1 # 1024)%Q) by reflexivity.
    assert (Hr1 : (1 <= inject_Z r)%Q).
    { change 1%Q with (inject_Z 1). rewrite <- Zle_Qle. lia. }
    assert (Hr2 : (inject_Z r <= 999)%Q).
    { change 999%Q with (inject_Z 999). rewrite <- Zle_Qle. lia. }
    set (y := round x) in *. clearbody y x.
    apply Qfloor_between; lra.
Qed.

Lemma round_thousandth : (0 < round (1 # 1000))%Q.
Proof. vm_compute. reflexivity. Qed.

(** [(num / 1000).toFixed(0)] of an integer of magnitude below [2^53]: the
    sign, then the integer nearest to the magnitude of the quotient. *)
Lemma toFixed0_quotient (num : Z) :
  Z.abs num < 2 ^ 53 ->
  toFixed0 (round (inject_Z num / 1000))
    = (if 0 <=? num then "" else "-") +:+ digits ((Z.abs num + 500) / 1000).
Proof.
  intros Hnum. unfold toFixed0.
  destruct (Z.leb_spec 0 num) as [Hpos | Hneg].
  - assert (Hx0 : (0 <= inject_Z num / 1000)%Q).
    { unfold Qle, Qdiv, Qmult, Qinv, inject_Z; simpl. lia. }
    rewrite (proj2 (Qle_bool_iff _ _) (round_nonneg _ Hx0)).
    rewrite Qabs_pos by (apply round_nonneg, Hx0).
    rewrite Z.abs_eq by exact Hpos. rewrite nearest_quotient by lia. reflexivity.
  - set (p := - num).
    assert (Eopp : (inject_Z num / 1000 == - (inject_Z p / 1000))%Q).
    { unfold p, Qeq, Qdiv, Qmult, Qinv, Qopp, inject_Z; simpl. lia. }
    assert (Er : (round (inject_Z num / 1000) == - round (inject_Z p / 1000))%Q).
    { rewrite (round_comp _ _ Eopp). apply round_opp. }
    assert (Hpos : (0 < round (inject_Z p / 1000))%Q).
    { apply Qlt_le_trans with (round (1 # 1000)); [exact round_thousandth|].
      apply round_mono. unfold p, Qle, Qdiv, Qmult, Qinv, inject_Z; simpl. lia. }
    assert (Hle : Qle_bool 0 (round (inject_Z num / 1000)) = false).
    { destruct (Qle_bool 0 (round (inject_Z num / 1000))) eqn:E; [|reflexivity].
      apply Qle_bool_iff in E. lra. }
    rewrite Hle. f_equal. f_equal.
    rewrite (Qfloor_comp _ (round (inject_Z p / 1000) + (1 # 2))).
    + rewrite nearest_quotient by (unfold p; lia). f_equal. f_equal. unfold p. lia.
    + rewrite Qabs_neg by lra. rewrite Er. ring.
Qed.

(** C6 (as amended).  For an integer [num] of magnitude below [2^53]:
    when [num] is at or above [lines_of_code], [formatNumber] renders the
    sign of [num], the digits of the integer nearest to the magnitude of
    [num / 1000] (a half rounds away from zero) and [k]; otherwise it
    renders [num] as [toLocaleString] does, which for a locale that groups
    digits in threes is the sign and the digits of the magnitude in groups
    of thousands joined by the separator of the locale.  When
    [lines_of_code] is 100000 the text of the Lines of Code counter at the
    end of the animation is ["100k"]. *)
Theorem formatNumber_rule (group_separator : string) (lines_of_code num : Z) :
  Z.abs num < 2 ^ 53 ->
  let sign := if 0 <=? num then "" else "-" in
  (lines_of_code <= num ->
     exists n,
       formatNumber group_separator lines_of_code num = (sign +:+ digits n) +:+ "k"
       /\ -500 < 1000 * n - Z.abs num <= 500)
  /\ (num < lines_of_code ->
      exists groups,
        formatNumber group_separator lines_of_code num
          = sign +:+ String.concat group_separator groups
        /\ String.concat "" groups = digits (Z.abs num)
        /\ thousands groups)
  /\ (lines_of_code = 100000 ->
      forall (targets : Stats Z) (periods : nat),
        linesOfCode targets = lines_of_code ->
        (60 <= periods)%nat ->
        exists final,
          last (HeroSection64.displayed targets periods) = Some final
          /\ formatNumber group_separator lines_of_code (linesOfCode final) = "100k").
Proof.
  intros Hnum sign. split; [|split].
  - intros Hge. exists ((Z.abs num + 500) / 1000). split.
    + unfold formatNumber. rewrite (proj2 (Z.leb_le _ _) Hge).
      rewrite (toFixed0_quotient num Hnum). reflexivity.
    + pose proof (Z.div_mod (Z.abs num + 500) 1000 ltac:(lia)) as Hdiv.
      pose proof (Z.mod_pos_bound (Z.abs num + 500) 1000 ltac:(lia)) as Hmod.
      lia.
  - intros Hlt. unfold formatNumber. rewrite (proj2 (Z.leb_gt _ _) Hlt).
    apply toLocaleString_thousands.
  - intros -> targets periods Ht Hp.
    destruct (displayed64_last targets periods Hp) as (final & Hlast & Hfinal).
    exists final. split; [exact Hlast|].
    specialize (Hfinal LinesOfCode). simpl in Hfinal. rewrite Hfinal, Ht.
    + vm_compute. reflexivity.
    + rewrite Ht. split; vm_compute; reflexivity.
Qed.

End Format64Props.

(** C6, counterexample.  The integer 109677677652940496 is a double; its
    quotient by 1000 is not, and the nearest double is
    109677677652940.5, which [toFixed(0)] rounds up: the text ends in
    [...941k] although the integer nearest to the quotient is
    109677677652940. *)
Lemma formatNumber_beyond_2_53_counterexample :
  let num := 109677677652940496 in
  Binary64.is_double (inject_Z num)
  /\ 100000 <= num
  /\ HeroSection64.formatNumber "," 100000 num = "109677677652941k"
  /\ -500 < 1000 * 109677677652940 - num <= 500.
Proof.
  split; [split; vm_compute; reflexivity|].
  split; [lia|]. split; [vm_compute; reflexivity | lia].
Qed.

Lemma formatNumber_rule_witness :
  (exists n,
     HeroSection64.formatNumber "," 100000 100499 = ("" +:+ HeroSection.digits n) +:+ "k"
     /\ -500 < 1000 * n - Z.abs 100499 <= 500)
  /\ (exists groups,
        HeroSection64.formatNumber "," 100000 98333 = "" +:+ String.concat "," groups
        /\ String.concat "" groups = HeroSection.digits (Z.abs 98333)
        /\ thousands groups)
  /\ exists final,
       last (HeroSection64.displayed Samples.hero_targets 60%nat) = Some final
       /\ HeroSection64.formatNumber "," 100000 (HeroSection.linesOfCode final) = "100k".
Proof.
  split; [|split].
  - apply (proj1 (formatNumber_rule "," 100000 100499 ltac:(lia))). lia.
  - apply (proj1 (proj2 (formatNumber_rule "," 100000 98333 ltac:(lia)))). lia.
  - apply (proj2 (proj2 (formatNumber_rule "," 100000 100000 ltac:(lia)))
             eq_refl Samples.hero_targets 60%nat); [reflexivity | lia].
Defined.

(** Texts of [formatNumber] for [lines_of_code = 100000], with the comma of
    [en-US] and with the point of [de-DE]; for a negative
    [lines_of_code], texts of negative values. *)
Example formatNumber64_samples :
  HeroSection64.formatNumber "," 100000 <$>
    [-1234; 0; 7; 999; 1000; 1666; 98333; 99999; 100000; 100499; 100500; 1234567]
  = ["-1,234"; "0"; "7"; "999"; "1,000"; "1,666"; "98,333"; "99,999";
     "100k"; "100k"; "101k"; "1235k"]
  /\ HeroSection64.formatNumber "." 100000 <$> [1666; 98333]
     = ["1.666"; "98.333"]
  /\ HeroSection64.formatNumber "," (-5000) <$> [-2500; -1500; -400]
     = ["-3k"; "-2k"; "-0k"]
  /\ HeroSection64.toLocaleString "," <$> [1234567; -1234]
     = HeroSection.toLocaleString_enUS <$> [1234567; -1234].
Proof. repeat split; vm_compute; reflexivity. Qed.

(* ================================================================== *)
(** * The fallback target of the self-healing counter *)
(* ================================================================== *)

Section FixersProps.
Import HeroSection Binary64.




End FixersProps.



(** The target of the self-healing counter on loaded documents: one whose
    [self_healing_system] has no [total_fixers] loads with the key holding
    [undefined] and gives 31; one with a count of 12 gives 12, which the
    counter reaches. *)
Example fixers_target_of_loaded_documents :
  let complete := Samples.master Samples.summary_complete (JNum 1) in
  let without := Samples.loaded (Samples.with_self_healing complete (obj [("name", JStr "fixers")])) in
  let with_12 := Samples.loaded (Samples.with_self_healing complete (obj [("total_fixers", JNum 12)])) in
  (shs ← path without ["technical_achievements"; "self_healing_system"];
   Ok (match shs with JObj m => m !! "total_fixers" | _ => None end))
    = Ok (Some JUndef)
  /\ (t ← HeroSection.targets without; Ok (HeroSection.fixers t)) = Ok (JNum 31)
  /\ (t ← HeroSection.targets with_12; Ok (HeroSection.fixers t)) = Ok (JNum 12)
  /\ last (HeroSection.fixers <$>
             HeroSection64.displayed
               {| HeroSection.clusters := 67; HeroSection.linesOfCode := 100000;
                  HeroSection.fixers := 12; HeroSection.accounts := 36 |} 60%nat)
     = Some 12.
Proof. repeat split; vm_compute; reflexivity. Qed.

(* ================================================================== *)
(** * Properties of the click-toggled selections *)
(* ================================================================== *)

Section SelectionProps.
Context {K : Type} `{EqDecision K}.

Lemma toggles_bool_decide (onClick : option K -> K -> option K)
    (is_selected : option K -> K -> bool) :
  (forall selected k, is_selected selected k = bool_decide (selected = Some k)) ->
  (forall selected k,
     onClick selected k = if is_selected selected k then None else Some k) ->
  toggles onClick is_selected.
Proof.
  intros His Hclick. repeat split.
  - intros k. rewrite Hclick, His, bool_decide_eq_true_2; reflexivity.
  - intros selected k Hne. rewrite Hclick, His, bool_decide_eq_false_2; [reflexivity|exact Hne].
  - rewrite His. intros Hb. apply bool_decide_eq_true_1 in Hb. congruence.
  - intros ->. rewrite His. apply bool_decide_eq_true_2. reflexivity.
  - intros j. rewrite His. apply bool_decide_eq_false_2. discriminate.
  - intros clicks i j selected. rewrite !His. intros Hi Hj.
    apply bool_decide_eq_true_1 in Hi, Hj. congruence.
Qed.

Lemma selected_absent (items : list K) (k : K) :
  k ∉ items ->
  filter (fun j => bool_decide (Some k = Some j) = true) items = [].
Proof.
  induction items as [|j items IH]; intros Hk; [reflexivity|].
  apply not_elem_of_cons in Hk as [Hne Hk].
  rewrite filter_cons_False; [apply IH, Hk|].
  intros Hb. apply bool_decide_eq_true_1 in Hb. congruence.
Qed.

Lemma selected_at_most_one (items : list K) (selected : option K) :
  NoDup items ->
  (length (filter (fun k => bool_decide (selected = Some k) = true) items) <= 1)%nat.
Proof.
  intros Hnd. induction Hnd as [|k items Hk Hnd IH]; [simpl; lia|].
  destruct (decide (bool_decide (selected = Some k) = true)) as [Hsel|Hsel].
  - rewrite filter_cons_True by exact Hsel.
    apply bool_decide_eq_true_1 in Hsel. subst selected.
    rewrite (selected_absent items k Hk). simpl. lia.
  - rewrite filter_cons_False by exact Hsel. exact IH.
Qed.
End SelectionProps.

(** C8.  In each of the three sections the click handler toggles a single
    optional selection: a click on the selected item clears it, a click on
    any other item makes that item the selection, and after every sequence
    of clicks at most one item is drawn expanded. *)
Theorem selection_at_most_one :
  toggles MetricsSection.onClick MetricsSection.is_selected
  /\ toggles ArchitectureSection.onClick ArchitectureSection.is_selected
  /\ toggles TimelineSection.onClick TimelineSection.is_selected
  /\ (forall clicks : list string,
        (length (MetricsSection.expanded (foldl MetricsSection.onClick None clicks)) <= 1)%nat)
  /\ (forall clicks : list nat,
        (length (ArchitectureSection.expanded
                   (foldl ArchitectureSection.onClick None clicks)) <= 1)%nat)
  /\ (forall (n : nat) (clicks : list nat),
        (length (TimelineSection.expanded n
                   (foldl TimelineSection.onClick None clicks)) <= 1)%nat).
Proof.
  split; [|split; [|split; [|split; [|split]]]].
  - apply toggles_bool_decide; reflexivity.
  - apply toggles_bool_decide; reflexivity.
  - apply toggles_bool_decide; reflexivity.
  - intros clicks. apply selected_at_most_one.
    unfold MetricsSection.metricCategories.
    repeat (apply NoDup_cons; split;
            [ intros Hin;
              repeat (apply elem_of_cons in Hin as [Hin|Hin]; [discriminate|]);
              apply elem_of_nil in Hin; exact Hin
            | ]).
    apply NoDup_nil_2.
  - intros clicks. apply selected_at_most_one. apply NoDup_seq.
  - intros n clicks. apply selected_at_most_one. apply NoDup_seq.
Qed.

Lemma selection_at_most_one_witness :
  ArchitectureSection.onClick (Some 2%nat) 2%nat = None
  /\ ArchitectureSection.onClick (Some 2%nat) 4%nat = Some 4%nat
  /\ ArchitectureSection.expanded
       (foldl ArchitectureSection.onClick None [2; 4; 4; 1]%nat) = [1%nat]
  /\ MetricsSection.expanded
       (foldl MetricsSection.onClick None ["Scale"; "Innovation"]) = ["Innovation"].
Proof.
  destruct selection_at_most_one as ((Hsame & Hother & _) & _).
  destruct selection_at_most_one as (_ & (Hsame' & Hother' & _) & _).
  split; [apply Hsame'|].
  split; [apply Hother'; discriminate|].
  split; reflexivity.
Defined.

(* ================================================================== *)
(** * Further properties of the Scroll Coordinator and of the navigation bar *)
(* ================================================================== *)

Section ScrollMoreProps.
Import App.

(** X1.  [handleScroll] sets [activeSection] to the last entry of its
    [sections] array whose element exists in the document and has its top
    at or above the threshold; an entry whose element is missing is
    skipped, and when no entry qualifies the state is left as it was. *)
Theorem handleScroll_last_reached_in_array_order
    (document : Document) (window : Window) (activeSection : string) :
  handleScroll document window activeSection =
    default activeSection
      (last (filter
               (fun name =>
                  reached (scrollPosition window) (getElementById document name) = true)
               sections)).
Proof.
  unfold handleScroll, sections. cbn [length handleScroll_loop lookup list_lookup].
  rewrite !filter_cons, filter_nil.
  unfold sections; cbn [lookup list_lookup].
  destruct (reached (scrollPosition window) (getElementById document "contact"));
  destruct (reached (scrollPosition window) (getElementById document "architecture"));
  destruct (reached (scrollPosition window) (getElementById document "metrics"));
  destruct (reached (scrollPosition window) (getElementById document "timeline"));
  destruct (reached (scrollPosition window) (getElementById document "hero"));
  reflexivity.
Qed.

Lemma handleScroll_cases (document : Document) (window : Window) (activeSection : string) :
  let r name := reached (scrollPosition window) (getElementById document name) in
  handleScroll document window activeSection =
    if r "contact" then "contact"
    else if r "architecture" then "architecture"
    else if r "metrics" then "metrics"
    else if r "timeline" then "timeline"
    else if r "hero" then "hero"
    else activeSection.
Proof. reflexivity. Qed.

(** X3.  Evaluating [handleScroll] again on the same page and window does
    not change [activeSection] any further. *)
Theorem handleScroll_idempotent
    (document : Document) (window : Window) (activeSection : string) :
  handleScroll document window (handleScroll document window activeSection)
  = handleScroll document window activeSection.
Proof.
  rewrite !handleScroll_cases. cbv zeta.
  destruct (reached (scrollPosition window) (getElementById document "contact"));
  destruct (reached (scrollPosition window) (getElementById document "architecture"));
  destruct (reached (scrollPosition window) (getElementById document "metrics"));
  destruct (reached (scrollPosition window) (getElementById document "timeline"));
  destruct (reached (scrollPosition window) (getElementById document "hero"));
  reflexivity.
Qed.

Lemma handleScroll_in_sections
    (document : Document) (window : Window) (activeSection : string) :
  activeSection ∈ sections ->
  handleScroll document window activeSection ∈ sections.
Proof.
  intros Hin. rewrite handleScroll_cases. cbv zeta. unfold sections.
  repeat match goal with
  | |- context [if ?b then _ else _] => destruct b
  end; try exact Hin;
    repeat first [apply list_elem_of_here | apply list_elem_of_further].
Qed.

Lemma after_scrolls_in_sections (events : list (Document * Window)) :
  after_scrolls events ∈ sections.
Proof.
  unfold after_scrolls.
  assert (H : "hero" ∈ sections) by apply list_elem_of_here.
  revert H. generalize "hero". induction events as [|ev events IH]; intros a Ha.
  - exact Ha.
  - simpl. apply IH, handleScroll_in_sections, Ha.
Qed.

(** X2.  After the call at mount and any sequence of scroll events, on
    whatever pages and windows, [activeSection] is the id of exactly one
    navigation item, and that item is the only one the navigation bar
    highlights. *)
Theorem navigation_highlights_exactly_one (events : list (Document * Window)) :
  exists item,
    Navigation.highlighted (after_scrolls events) = [item]
    /\ Navigation.id item = after_scrolls events.
Proof.
  pose proof (after_scrolls_in_sections events) as Hin.
  unfold sections in Hin.
  repeat (apply elem_of_cons in Hin as [->|Hin]);
    [eexists; split; reflexivity ..|].
  apply elem_of_nil in Hin. contradiction.
Qed.

Lemma Qle_bool_inject_Z_mono (x y : Z) (threshold : Q) :
  x <= y ->
  Qle_bool (inject_Z y) threshold = true ->
  Qle_bool (inject_Z x) threshold = true.
Proof.
  intros Hxy Hy. apply Qle_bool_iff. apply Qle_bool_iff in Hy.
  eapply Qle_trans; [|exact Hy]. rewrite <- Zle_Qle. exact Hxy.
Qed.

(** X5.  On the page as [App] renders it, with the sections laid out top
    to bottom, [handleScroll] reports the last qualifying section in
    document order, except that it reports Metrics where that section is
    Timeline; when no section qualifies the state is left as it was. *)
Theorem handleScroll_on_rendered_page
    (hero metrics timeline architecture contact : Z) (window : Window)
    (activeSection : string) :
  hero <= metrics -> metrics <= timeline ->
  timeline <= architecture -> architecture <= contact ->
  let document := render [hero; metrics; timeline; architecture; contact] in
  handleScroll document window activeSection =
    match spec_active document (scrollPosition window) with
    | None => activeSection
    | Some name => if String.eqb name "timeline" then "metrics" else name
    end.
Proof.
  intros H1 H2 H3 H4 document. rewrite handleScroll_cases. cbv zeta.
  unfold spec_active, qualifying.
  change document with
    [ Build_Element "hero" hero; Build_Element "metrics" metrics;
      Build_Element "timeline" timeline; Build_Element "architecture" architecture;
      Build_Element "contact" contact ].
  rewrite !filter_cons, filter_nil. cbn [offsetTop].
  cbn [getElementById List.find id String.eqb Ascii.eqb Bool.eqb reached offsetTop].
  pose proof (Qle_bool_inject_Z_mono _ _ (scrollPosition window) H1) as M1.
  pose proof (Qle_bool_inject_Z_mono _ _ (scrollPosition window) H2) as M2.
  pose proof (Qle_bool_inject_Z_mono _ _ (scrollPosition window) H3) as M3.
  pose proof (Qle_bool_inject_Z_mono _ _ (scrollPosition window) H4) as M4.
  destruct (Qle_bool (inject_Z contact) (scrollPosition window));
  destruct (Qle_bool (inject_Z architecture) (scrollPosition window));
  destruct (Qle_bool (inject_Z timeline) (scrollPosition window));
  destruct (Qle_bool (inject_Z metrics) (scrollPosition window));
  destruct (Qle_bool (inject_Z hero) (scrollPosition window));
  try reflexivity;
  repeat match goal with
  | H : true = true -> _ |- _ => specialize (H eq_refl)
  end; discriminate.
Qed.

Lemma handleScroll_timeline_only_kept
    (hero metrics timeline architecture contact : Z) (window : Window)
    (activeSection : string) :
  metrics <= timeline ->
  handleScroll (render [hero; metrics; timeline; architecture; contact]) window
    activeSection = "timeline" ->
  activeSection = "timeline".
Proof.
  intros H2. rewrite handleScroll_cases. cbv zeta.
  cbn [render zip_with main_children].
  cbn [getElementById List.find id String.eqb Ascii.eqb Bool.eqb reached offsetTop].
  pose proof (Qle_bool_inject_Z_mono _ _ (scrollPosition window) H2) as M2.
  destruct (Qle_bool (inject_Z contact) (scrollPosition window));
  destruct (Qle_bool (inject_Z architecture) (scrollPosition window));
  destruct (Qle_bool (inject_Z timeline) (scrollPosition window));
  destruct (Qle_bool (inject_Z metrics) (scrollPosition window));
  destruct (Qle_bool (inject_Z hero) (scrollPosition window));
  try discriminate; try (intros; assumption);
  specialize (M2 eq_refl); discriminate.
Qed.

(** X4.  On the page as [App] renders it, with Metrics above or level with
    Timeline, no sequence of scroll evaluations ever makes [activeSection]
    equal to ["timeline"]. *)
Theorem timeline_never_active (events : list (Document * Window)) :
  Forall on_rendered_page events ->
  after_scrolls events <> "timeline".
Proof.
  unfold after_scrolls. intros Hall.
  assert (H : "hero" <> "timeline") by discriminate.
  revert H. generalize "hero".
  induction Hall as [|[document window] events Hev _ IH]; intros a Ha.
  - exact Ha.
  - simpl. apply IH. intros Heq. apply Ha.
    destruct Hev as (h & m & t & ar & c & Hdoc & Hmt). simpl in Hdoc. subst document.
    eapply handleScroll_timeline_only_kept; eassumption.
Qed.

(** X6.  On the rendered page every navigation button has a target: the
    button at position [i] scrolls to the element of its own id, which is
    the section rendered at position [i]. *)
Theorem navigation_targets (offsets : list Z) (i : nat) (item : Navigation.NavItem) :
  length offsets = 5%nat ->
  Navigation.navItems !! i = Some item ->
  exists element,
    Navigation.scrollToSection (render offsets) (Navigation.id item) = Some element
    /\ render offsets !! i = Some element
    /\ id element = Navigation.id item
    /\ offsets !! i = Some (offsetTop element).
Proof.
  intros Hlen Hitem.
  destruct offsets as [|o0 [|o1 [|o2 [|o3 [|o4 [|]]]]]]; try discriminate.
  destruct i as [|[|[|[|[|i]]]]]; try discriminate;
    injection Hitem as <-; eexists; repeat split; reflexivity.
Qed.
End ScrollMoreProps.

Lemma handleScroll_on_rendered_page_witness :
  let document := App.render [0; 800; 1600; 2400; 3200] in
  let window := {| App.scrollY := 1500; App.innerHeight := 900 |} in
  App.handleScroll document window "hero" =
    match App.spec_active document (App.scrollPosition window) with
    | None => "hero"
    | Some name => if String.eqb name "timeline" then "metrics" else name
    end.
Proof.
  apply (handleScroll_on_rendered_page 0 800 1600 2400 3200
           {| App.scrollY := 1500; App.innerHeight := 900 |} "hero"); lia.
Defined.

Lemma timeline_never_active_witness :
  App.after_scrolls Samples.scrolls <> "timeline".
Proof.
  apply (timeline_never_active Samples.scrolls).
  repeat constructor; exists 0, 800, 1600, 2400, 3200; (split; [reflexivity | lia]).
Defined.

Lemma navigation_targets_witness :
  exists element,
    Navigation.scrollToSection (App.render [0; 800; 1600; 2400; 3200]) "timeline"
      = Some element
    /\ App.render [0; 800; 1600; 2400; 3200] !! 2%nat = Some element
    /\ App.id element = "timeline"
    /\ [0; 800; 1600; 2400; 3200] !! 2%nat = Some (App.offsetTop element).
Proof.
  apply (navigation_targets [0; 800; 1600; 2400; 3200] 2
           {| Navigation.id := "timeline"; Navigation.label := "Journey" |});
    reflexivity.
Defined.

(* ================================================================== *)
(** * Further properties of the Counter Animator *)
(* ================================================================== *)

Section CounterMoreProps.
Import HeroSection.







End CounterMoreProps.




(* ================================================================== *)
(** * Further properties of the Counter Animator in double precision *)
(* ================================================================== *)

Section Counter64MoreProps.
Import HeroSection Binary64.

(** While steps remain, every period fires the callback once. *)
Lemma firings64_running (targets : Stats Z) (periods : nat) :
  forall s : Effect,
    currentStep s + Z.of_nat periods <= steps ->
    timer s = true ->
    HeroSection64.firings targets periods s =
      (fun i : nat => frame64 targets (currentStep s + 1 + Z.of_nat i)) <$> seq 0 periods.
Proof.
  induction periods as [|periods IH]; intros s Hp Ht; [reflexivity|].
  cbn [HeroSection64.firings]. rewrite Ht, interval_callback64_frame.
  rewrite <- (cons_seq _ 0), fmap_cons. change (Z.of_nat 0) with 0.
  rewrite Z.add_0_r. f_equal.
  destruct periods as [|periods']; [reflexivity|].
  rewrite IH.
  - rewrite <- (fmap_S_seq 0), <- list_fmap_compose. apply list_fmap_ext.
    intros i x _. unfold compose. rewrite frame64_step. f_equal. lia.
  - rewrite frame64_step. lia.
  - rewrite frame64_timer. apply bool_decide_eq_true_2. lia.
Qed.

Lemma displayed64_at (targets : Stats Z) (periods : nat) (c : Counter) :
  stat c <$> HeroSection64.displayed targets periods =
    0 :: ((fun i : nat => shown64 (stat c targets) (Z.of_nat i)) <$> seq 1 (periods `min` 60)).
Proof.
  destruct (Nat.le_gt_cases 60 periods) as [Hge|Hlt].
  - rewrite Nat.min_r by exact Hge. apply displayed64_stat, Hge.
  - rewrite Nat.min_l by lia.
    unfold HeroSection64.displayed. rewrite fmap_cons.
    rewrite (firings64_running targets periods mount);
      [|unfold steps; simpl; lia|reflexivity].
    rewrite <- (fmap_S_seq 0).
    rewrite !fmap_cons, <- !list_fmap_compose.
    f_equal.
    + destruct c; reflexivity.
    + apply list_fmap_ext. intros i x _. unfold compose.
      rewrite frame64_stat. f_equal. simpl. lia.
Qed.

(** X20.  In double precision too, every value a counter has shown lies
    between 0 and its target, for a non-negative target that is a
    double. *)
Theorem counter64_within_bounds
    (targets : Stats Z) (c : Counter) (periods : nat) (v : Z) :
  0 <= stat c targets ->
  is_double (inject_Z (stat c targets)) ->
  v ∈ stat c <$> HeroSection64.displayed targets periods ->
  0 <= v <= stat c targets.
Proof.
  intros HT Hd Hv. rewrite displayed64_at in Hv.
  apply elem_of_cons in Hv as [-> | Hv]; [lia|].
  apply list_elem_of_fmap in Hv as (i & -> & _).
  apply shown64_bounds; [exact HT | exact Hd | lia].
Qed.

(** X21.  In double precision the number of frames is the same: after
    [periods] timer periods the counters have shown [1 + min periods 60]
    frames, [progress === 1] holding at the 60th step and at no step before
    it, whatever the targets. *)
Theorem counter64_frames_count (targets : Stats Z) (periods : nat) :
  length (HeroSection64.displayed targets periods) = S (periods `min` 60)
  /\ ((60 <= periods)%nat ->
      HeroSection64.displayed targets periods = HeroSection64.displayed targets 60)
  /\ (forall k : Z, Qeq_bool (HeroSection64.progress_at k) 1 = bool_decide (60 <= k)).
Proof.
  split; [|split].
  - rewrite <- (length_fmap (stat Clusters)), displayed64_at. cbn [length].
    rewrite length_fmap, length_seq. reflexivity.
  - intros Hp. rewrite (displayed64_frames targets periods Hp).
    rewrite (displayed64_frames targets 60); [reflexivity | lia].
  - intros k. case_bool_decide.
    + apply timer64_cleared. unfold steps. lia.
    + apply timer64_running. unfold steps. lia.
Qed.




End Counter64MoreProps.

Lemma counter64_within_bounds_witness : 0 <= 54 <= 75.
Proof.
  apply (counter64_within_bounds Samples.targets_75 Clusters 50 54).
  - simpl; lia.
  - split; vm_compute; reflexivity.
  - apply (list_elem_of_lookup_2 _ 44). reflexivity.
Defined.


(* ================================================================== *)
(** * Further properties of the View-Model Loader and of its consumers *)
(* ================================================================== *)

Section LoaderMoreProps.
Import DataLoader.
Variable yaml_load : string -> Res JsVal.

Lemma loadMasterData_result (masterDataYaml : string) (w : World) :
  fst (loadMasterData yaml_load masterDataYaml w) = yaml_load masterDataYaml ≫= view_model.
Proof.
  destruct (loadMasterData_run yaml_load masterDataYaml) as (log & Hrun).
  rewrite (Hrun w). reflexivity.
Qed.

Lemma loadMasterData_loaded (masterDataYaml : string) (w : World) (yamlData data : JsVal) :
  yaml_load masterDataYaml = Ok yamlData ->
  fst (loadMasterData yaml_load masterDataYaml w) = Ok data ->
  view_model yamlData = Ok data.
Proof. intros Hparse. rewrite loadMasterData_result, Hparse. auto. Qed.

Lemma view_model_sources (yamlData data : JsVal) :
  view_model yamlData = Ok data ->
  Forall (fun '(out, src) => exists v, path yamlData src = Ok v /\ path data out = Ok v)
    field_sources.
Proof.
  intros Hvm.
  destruct (view_model_fields yamlData) as (data' & Hvm' & Hall).
  { rewrite <- view_model_ok, Hvm. reflexivity. }
  rewrite Hvm in Hvm'. injection Hvm' as <-. exact Hall.
Qed.

Lemma view_model_source (yamlData data : JsVal) (out src : list string) :
  view_model yamlData = Ok data ->
  (out, src) ∈ field_sources ->
  exists v, path yamlData src = Ok v /\ path data out = Ok v.
Proof.
  intros Hvm Hin.
  exact (proj1 (Forall_forall _ _) (view_model_sources _ _ Hvm) (out, src) Hin).
Qed.

Ltac in_table := repeat first [apply list_elem_of_here | apply list_elem_of_further].

(** The keys of an object literal. *)
Lemma object_props_dom (inits : list (string * Res JsVal)) :
  forall (acc m : gmap string JsVal),
    object_props acc inits = Ok m ->
    dom m = dom acc ∪ list_to_set (inits.*1).
Proof.
  induction inits as [|[k e] inits IH]; intros acc m; simpl.
  - intros [= <-]. rewrite (right_id_L ∅ (∪)). reflexivity.
  - destruct e as [v|x]; simpl; [|discriminate].
    intros Hm. rewrite (IH _ _ Hm), dom_insert_L.
    rewrite (comm_L (∪) {[k]} (dom acc)), (assoc_L (∪)). reflexivity.
Qed.

Lemma object_literal_dom (inits : list (string * Res JsVal)) (d : JsVal) :
  object_literal inits = Ok d ->
  exists m, d = JObj m /\ dom m = list_to_set (inits.*1).
Proof.
  unfold object_literal. destruct (object_props ∅ inits) as [m|e] eqn:Hm; [|discriminate].
  simpl. intros [= <-]. exists m. split; [reflexivity|].
  rewrite (object_props_dom _ _ _ Hm), dom_empty_L, (left_id_L ∅ (∪)). reflexivity.
Qed.

Lemma view_model_top_level (yamlData data : JsVal) :
  view_model yamlData = Ok data ->
  exists m,
    data = JObj m
    /\ dom m = list_to_set ["career_summary"; "platform_transformation";
                            "technical_achievements"; "metrics_and_impact"].
Proof. intros Hvm. apply object_literal_dom in Hvm. exact Hvm. Qed.

(** X11.  The view-model is not itself a loadable document: if a text
    parses to the view-model that [loadMasterData] returned, loading that
    text fails with a [TypeError] (the loader reads [self_healing_system]
    at the top level, where the view-model has no such key). *)
Theorem loadMasterData_output_is_not_an_input
    (masterDataYaml again : string) (w w' : World) (yamlData data : JsVal) :
  yaml_load masterDataYaml = Ok yamlData ->
  fst (loadMasterData yaml_load masterDataYaml w) = Ok data ->
  yaml_load again = Ok data ->
  fst (loadMasterData yaml_load again w') = Throw TypeError.
Proof.
  intros Hparse Hload Hagain.
  pose proof (loadMasterData_loaded _ _ _ _ Hparse Hload) as Hvm.
  destruct (view_model_top_level _ _ Hvm) as (m & -> & Hdom).
  assert (Habsent : m !! "self_healing_system" = None).
  { apply not_elem_of_dom. rewrite Hdom. intros Hin.
    apply elem_of_list_to_set in Hin.
    repeat (apply elem_of_cons in Hin as [Hin|Hin]; [discriminate|]).
    apply elem_of_nil in Hin. exact Hin. }
  rewrite loadMasterData_result, Hagain. simpl.
  destruct (view_model (JObj m)) as [d|e] eqn:Hre.
  - exfalso.
    assert (Hok : is_ok (view_model (JObj m)) = true) by (rewrite Hre; reflexivity).
    rewrite view_model_ok in Hok.
    assert (Hp : present (JObj m) ["self_healing_system"] = true).
    { apply (proj1 (forallb_forall _ _) Hok). unfold parent_records.
      do 5 right. left. reflexivity. }
    unfold present in Hp. simpl in Hp. rewrite Habsent in Hp. discriminate.
  - f_equal. eapply view_model_throws_only. exact Hre.
Qed.

(** X12.  In a loaded view-model the derived metrics equal the fields they
    are derived from: [metrics_and_impact.scale] repeats the peak cluster
    and account counts, and [reliability.self_healing_patterns] repeats
    [total_fixers]. *)
Theorem loadMasterData_derived_metrics
    (masterDataYaml : string) (w : World) (yamlData data : JsVal) :
  yaml_load masterDataYaml = Ok yamlData ->
  fst (loadMasterData yaml_load masterDataYaml w) = Ok data ->
  path data ["metrics_and_impact"; "scale"; "clusters"]
    = path data ["platform_transformation"; "after"; "peak_clusters"]
  /\ path data ["metrics_and_impact"; "scale"; "aws_accounts"]
     = path data ["platform_transformation"; "after"; "peak_accounts"]
  /\ path data ["metrics_and_impact"; "reliability"; "self_healing_patterns"]
     = path data ["technical_achievements"; "self_healing_system"; "total_fixers"].
Proof.
  intros Hparse Hload.
  pose proof (loadMasterData_loaded _ _ _ _ Hparse Hload) as Hvm.
  repeat split.
  - destruct (view_model_source _ _ ["metrics_and_impact"; "scale"; "clusters"]
                ["platform_transformation"; "after"; "peak_clusters"] Hvm ltac:(in_table))
      as (v1 & Hs1 & ->).
    destruct (view_model_source _ _ ["platform_transformation"; "after"; "peak_clusters"]
                ["platform_transformation"; "after"; "peak_clusters"] Hvm ltac:(in_table))
      as (v2 & Hs2 & ->).
    congruence.
  - destruct (view_model_source _ _ ["metrics_and_impact"; "scale"; "aws_accounts"]
                ["platform_transformation"; "after"; "peak_accounts"] Hvm ltac:(in_table))
      as (v1 & Hs1 & ->).
    destruct (view_model_source _ _ ["platform_transformation"; "after"; "peak_accounts"]
                ["platform_transformation"; "after"; "peak_accounts"] Hvm ltac:(in_table))
      as (v2 & Hs2 & ->).
    congruence.
  - destruct (view_model_source _ _
                ["metrics_and_impact"; "reliability"; "self_healing_patterns"]
                ["self_healing_system"; "total_fixers"] Hvm ltac:(in_table))
      as (v1 & Hs1 & ->).
    destruct (view_model_source _ _
                ["technical_achievements"; "self_healing_system"; "total_fixers"]
                ["self_healing_system"; "total_fixers"] Hvm ltac:(in_table))
      as (v2 & Hs2 & ->).
    congruence.
Qed.

(** X13.  [loadMasterData] writes to the console exactly two lines, the raw
    [lines_of_code] and [peak_clusters] of the document ([undefined] where
    a record on the way is absent), whenever the text parses to something
    other than [null] or [undefined], also when the load then fails; it
    writes nothing otherwise. *)
Theorem loadMasterData_console (masterDataYaml : string) (w : World) :
  console (snd (loadMasterData yaml_load masterDataYaml w)) =
    console w ++
    match yaml_load masterDataYaml with
    | Ok yamlData =>
        if nullish yamlData then []
        else [ [ JStr "Lines of code from YAML:";
                 field (field (field yamlData "technical_achievements") "b2b_cli")
                   "lines_of_code" ];
               [ JStr "Peak clusters:";
                 field (field (field yamlData "platform_transformation") "after")
                   "peak_clusters" ] ]
    | Throw _ => []
    end.
Proof.
  unfold loadMasterData, mbind, Js_bind, lift, console_log.
  destruct (yaml_load masterDataYaml) as [yamlData|e]; simpl.
  - destruct (nullish yamlData) eqn:Hn.
    + rewrite (get_absent _ _ Hn); simpl. rewrite app_nil_r. reflexivity.
    + rewrite !(get_present _ _ Hn); simpl.
      rewrite !opt_get_field; simpl. rewrite !opt_get_field; simpl.
      rewrite <- app_assoc. reflexivity.
  - rewrite app_nil_r. reflexivity.
Qed.

Lemma path_snoc_inv (v r : JsVal) (ks : list string) (k : string) :
  path v (ks ++ [k]) = Ok r ->
  exists parent, path v ks = Ok parent /\ nullish parent = false /\ field parent k = r.
Proof.
  rewrite path_snoc. destruct (path v ks) as [parent|e]; simpl; [|discriminate].
  intros Hget. exists parent. split; [reflexivity|].
  destruct (nullish parent) eqn:Hn.
  - rewrite (get_absent _ _ Hn) in Hget. discriminate.
  - rewrite (get_present _ _ Hn) in Hget. injection Hget as <-. split; reflexivity.
Qed.

(** X10.  On every view-model that [loadMasterData] returns, the Hero
    section can read its four targets without an exception; they are the
    raw peak clusters, lines of code and peak accounts of the document, and
    the raw top-level [total_fixers] when that is truthy, 31 otherwise. *)
Theorem hero_targets_of_loaded_data
    (masterDataYaml : string) (w : World) (yamlData data : JsVal) :
  yaml_load masterDataYaml = Ok yamlData ->
  fst (loadMasterData yaml_load masterDataYaml w) = Ok data ->
  exists t total_fixers,
    HeroSection.targets data = Ok t
    /\ path yamlData ["platform_transformation"; "after"; "peak_clusters"]
       = Ok (HeroSection.clusters t)
    /\ path yamlData ["technical_achievements"; "b2b_cli"; "lines_of_code"]
       = Ok (HeroSection.linesOfCode t)
    /\ path yamlData ["platform_transformation"; "after"; "peak_accounts"]
       = Ok (HeroSection.accounts t)
    /\ path yamlData ["self_healing_system"; "total_fixers"] = Ok total_fixers
    /\ HeroSection.fixers t = (if truthy total_fixers then total_fixers else JNum 31).
Proof.
  intros Hparse Hload.
  pose proof (loadMasterData_loaded _ _ _ _ Hparse Hload) as Hvm.
  destruct (view_model_source _ _ ["platform_transformation"; "after"; "peak_clusters"]
              ["platform_transformation"; "after"; "peak_clusters"] Hvm ltac:(in_table))
    as (c & Hc & Hc').
  destruct (view_model_source _ _ ["technical_achievements"; "b2b_cli"; "lines_of_code"]
              ["technical_achievements"; "b2b_cli"; "lines_of_code"] Hvm ltac:(in_table))
    as (l & Hl & Hl').
  destruct (view_model_source _ _ ["platform_transformation"; "after"; "peak_accounts"]
              ["platform_transformation"; "after"; "peak_accounts"] Hvm ltac:(in_table))
    as (a & Ha & Ha').
  destruct (view_model_source _ _
              ["technical_achievements"; "self_healing_system"; "total_fixers"]
              ["self_healing_system"; "total_fixers"] Hvm ltac:(in_table))
    as (f & Hf & Hf').
  change ["technical_achievements"; "self_healing_system"; "total_fixers"]
    with (["technical_achievements"; "self_healing_system"] ++ ["total_fixers"]) in Hf'.
  apply path_snoc_inv in Hf' as (shs & Hshs & Hn & Hfield).
  exists {| HeroSection.clusters := c;
            HeroSection.linesOfCode := l;
            HeroSection.fixers := if truthy f then f else JNum 31;
            HeroSection.accounts := a |}, f.
  split; [|repeat split; assumption].
  unfold HeroSection.targets. rewrite Hc', Hl', Ha', Hshs. cbn [mbind Res_bind].
  rewrite opt_get_field, Hfield. unfold js_or. cbn [mbind Res_bind].
  destruct (truthy f); reflexivity.
Qed.

Section MetricsProps.
Variable object_toString : JsVal -> Res string.

(** X19.  A document without [self_healing_system.total_fixers] (or with
    it [null]) can load, but on its view-model the Metrics section's
    [self_healing_patterns.toString()] throws a [TypeError]; when the
    field is an integer of magnitude below [2^53] the metric shows its
    sign and decimal digits. *)
Theorem metrics_self_healing_patterns
    (masterDataYaml : string) (w : World) (yamlData data total_fixers : JsVal) :
  yaml_load masterDataYaml = Ok yamlData ->
  fst (loadMasterData yaml_load masterDataYaml w) = Ok data ->
  path yamlData ["self_healing_system"; "total_fixers"] = Ok total_fixers ->
  (nullish total_fixers = true ->
     MetricsSection.self_healing_patterns object_toString data = Throw TypeError)
  /\ (forall n, total_fixers = JNum n -> Z.abs n < 2 ^ 53 ->
        MetricsSection.self_healing_patterns object_toString data
          = Ok ((if 0 <=? n then "" else "-") +:+ HeroSection.digits (Z.abs n))).
Proof.
  intros Hparse Hload Htf.
  pose proof (loadMasterData_loaded _ _ _ _ Hparse Hload) as Hvm.
  destruct (view_model_source _ _
              ["metrics_and_impact"; "reliability"; "self_healing_patterns"]
              ["self_healing_system"; "total_fixers"] Hvm ltac:(in_table))
    as (v & Hv & Hv').
  rewrite Htf in Hv. injection Hv as <-.
  unfold MetricsSection.self_healing_patterns. rewrite Hv'. cbn [mbind Res_bind].
  split.
  - intros Hn. destruct total_fixers; try discriminate; reflexivity.
  - intros n -> _. reflexivity.
Qed.
End MetricsProps.
End LoaderMoreProps.

(** The sample documents load, also the one whose [self_healing_system]
    has no [total_fixers]. *)
Lemma samples_load :
  let load doc :=
    fst (DataLoader.loadMasterData (Samples.parser doc) "master-data.yaml"
           {| console := [] |}) in
  let complete := Samples.master Samples.summary_complete (JNum 1) in
  load complete = Ok (Samples.loaded complete)
  /\ load (Samples.master Samples.summary_without_role (JNum 1))
     = Ok (Samples.loaded (Samples.master Samples.summary_without_role (JNum 1)))
  /\ load (Samples.with_self_healing complete (obj [("name", JStr "fixers")]))
     = Ok (Samples.loaded
             (Samples.with_self_healing complete (obj [("name", JStr "fixers")])))
  /\ fst (DataLoader.loadMasterData (Samples.reparser complete) "master-data.yaml"
            {| console := [] |}) = Ok (Samples.loaded complete)
  /\ Samples.reparser complete "view-model.yaml" = Ok (Samples.loaded complete).
Proof. repeat split; vm_compute; reflexivity. Qed.

Lemma loadMasterData_output_is_not_an_input_witness :
  fst (DataLoader.loadMasterData
         (Samples.reparser (Samples.master Samples.summary_complete (JNum 1)))
         "view-model.yaml" {| console := [] |}) = Throw TypeError.
Proof.
  apply (loadMasterData_output_is_not_an_input
           (Samples.reparser (Samples.master Samples.summary_complete (JNum 1)))
           "master-data.yaml" "view-model.yaml" {| console := [] |} {| console := [] |}
           (Samples.master Samples.summary_complete (JNum 1))
           (Samples.loaded (Samples.master Samples.summary_complete (JNum 1)))).
  - reflexivity.
  - exact (proj1 (proj2 (proj2 (proj2 samples_load)))).
  - exact (proj2 (proj2 (proj2 (proj2 samples_load)))).
Defined.

Lemma loadMasterData_derived_metrics_witness :
  let data := Samples.loaded (Samples.master Samples.summary_complete (JNum 1)) in
  path data ["metrics_and_impact"; "scale"; "clusters"]
    = path data ["platform_transformation"; "after"; "peak_clusters"]
  /\ path data ["metrics_and_impact"; "scale"; "aws_accounts"]
     = path data ["platform_transformation"; "after"; "peak_accounts"]
  /\ path data ["metrics_and_impact"; "reliability"; "self_healing_patterns"]
     = path data ["technical_achievements"; "self_healing_system"; "total_fixers"].
Proof.
  apply (loadMasterData_derived_metrics
           (Samples.parser (Samples.master Samples.summary_complete (JNum 1)))
           "master-data.yaml" {| console := [] |}
           (Samples.master Samples.summary_complete (JNum 1))
           (Samples.loaded (Samples.master Samples.summary_complete (JNum 1))));
    [reflexivity | exact (proj1 samples_load)].
Defined.

Lemma hero_targets_of_loaded_data_witness :
  let doc := Samples.master Samples.summary_without_role (JNum 1) in
  exists t total_fixers,
    HeroSection.targets (Samples.loaded doc) = Ok t
    /\ path doc ["platform_transformation"; "after"; "peak_clusters"]
       = Ok (HeroSection.clusters t)
    /\ path doc ["technical_achievements"; "b2b_cli"; "lines_of_code"]
       = Ok (HeroSection.linesOfCode t)
    /\ path doc ["platform_transformation"; "after"; "peak_accounts"]
       = Ok (HeroSection.accounts t)
    /\ path doc ["self_healing_system"; "total_fixers"] = Ok total_fixers
    /\ HeroSection.fixers t = (if truthy total_fixers then total_fixers else JNum 31).
Proof.
  apply (hero_targets_of_loaded_data
           (Samples.parser (Samples.master Samples.summary_without_role (JNum 1)))
           "master-data.yaml" {| console := [] |}
           (Samples.master Samples.summary_without_role (JNum 1))
           (Samples.loaded (Samples.master Samples.summary_without_role (JNum 1))));
    [reflexivity | exact (proj1 (proj2 samples_load))].
Defined.

Lemma metrics_self_healing_patterns_witness :
  let doc :=
    Samples.with_self_healing (Samples.master Samples.summary_complete (JNum 1))
      (obj [("name", JStr "fixers")]) in
  MetricsSection.self_healing_patterns (fun _ => Ok "[object Object]")
    (Samples.loaded doc) = Throw TypeError.
Proof.
  intros doc.
  apply (proj1 (metrics_self_healing_patterns (Samples.parser doc)
                  (fun _ => Ok "[object Object]")
                  "master-data.yaml" {| console := [] |} doc (Samples.loaded doc) JUndef
                  eq_refl (proj1 (proj2 (proj2 samples_load))) eq_refl)).
  reflexivity.
Defined.

(* ================================================================== *)
(** * Further properties of the Timeline Transformer *)
(* ================================================================== *)

Section TimelineMoreProps.
Import DataLoader.
Variable JSON_parse : string -> Res JsVal.

Lemma map_res_Forall2 {A B} (f : A -> Res B) (l : list A) (l' : list B) :
  map_res f l = Ok l' -> Forall2 (fun x y => f x = Ok y) l l'.
Proof.
  revert l'. induction l as [|x l IH]; intros l'; simpl.
  - intros [= <-]. constructor.
  - destruct (f x) as [y|e] eqn:Hx; simpl; [|discriminate].
    destruct (map_res f l) as [ys|e]; simpl; [|discriminate].
    intros [= <-]. constructor; [exact Hx | apply IH; reflexivity].
Qed.

Lemma map_res_throws_only {A B} (e : Exn) (f : A -> Res B) (l : list A) :
  (forall x, throws_only e (f x)) -> throws_only e (map_res f l).
Proof.
  intros Hf. induction l as [|x l IH]; intros e'; simpl; [discriminate|].
  destruct (f x) as [y|e0] eqn:Hx; simpl.
  - destruct (map_res f l) as [ys|e1]; simpl; [discriminate|].
    intros [= <-]. apply IH. reflexivity.
  - intros [= <-]. eapply Hf, Hx.
Qed.

Lemma loadTimeline_item_nullish (item : JsVal) :
  nullish item = true -> loadTimeline_item item = Throw TypeError.
Proof. destruct item; intros H; try discriminate; reflexivity. Qed.

Lemma loadTimeline_item_throws_only (item : JsVal) :
  throws_only TypeError (loadTimeline_item item).
Proof.
  intros e He. destruct (nullish item) eqn:Hn.
  - rewrite (loadTimeline_item_nullish _ Hn) in He. congruence.
  - pose proof (loadTimeline_item_ok item Hn) as Hok. rewrite He in Hok. discriminate.
Qed.

Lemma loadTimeline_item_shape (item : JsVal) :
  nullish item = false ->
  exists achievements,
    loadTimeline_item item =
      Ok (obj [("period", field item "period");
               ("event", field item "event");
               ("achievements", achievements)]).
Proof.
  intros Hn. unfold loadTimeline_item, object_literal, js_or, obj, props.
  rewrite !(get_present _ _ Hn). cbn.
  destruct (truthy (field item "achievements")); cbn;
    [|destruct (truthy (field item "state")); cbn]; eexists; reflexivity.
Qed.

(** X14.  [loadTimeline] succeeds exactly when the text parses, the
    document's [career_timeline] is an array, and no entry of it is [null]
    or [undefined]; when it fails, the exception is the parser's or a
    [TypeError]. *)
Theorem loadTimeline_succeeds_iff (timelineJson : string) :
  (is_ok (loadTimeline JSON_parse timelineJson) = true <->
   exists doc items,
     JSON_parse timelineJson = Ok doc
     /\ get doc "career_timeline" = Ok (JArr items)
     /\ Forall (fun item => nullish item = false) items)
  /\ (forall e, loadTimeline JSON_parse timelineJson = Throw e ->
        JSON_parse timelineJson = Throw e \/ e = TypeError).
Proof.
  split; [split|].
  - unfold loadTimeline.
    destruct (JSON_parse timelineJson) as [doc|e]; [|discriminate]. cbn [mbind Res_bind].
    destruct (get doc "career_timeline") as [ct|e] eqn:Hget; [|discriminate].
    cbn [mbind Res_bind].
    destruct ct as [| | | | |items|]; try discriminate.
    unfold Array_map.
    destruct (map_res loadTimeline_item items) as [events|e] eqn:Hmap; [|discriminate].
    intros _. exists doc, items. split; [reflexivity|]. split; [exact Hget|].
    apply map_res_Forall2 in Hmap.
    apply Forall_forall. intros item Hin.
    apply list_elem_of_lookup in Hin as (i & Hi).
    destruct (Forall2_lookup_l _ _ _ _ _ Hmap Hi) as (ev & _ & Hev).
    destruct (nullish item) eqn:Hn; [|reflexivity].
    rewrite (loadTimeline_item_nullish _ Hn) in Hev. discriminate.
  - intros (doc & items & Hparse & Hget & Hitems).
    destruct (loadTimeline_events JSON_parse _ _ _ Hparse Hget Hitems) as (events & -> & _).
    reflexivity.
  - intros e. unfold loadTimeline.
    destruct (JSON_parse timelineJson) as [doc|e0]; [|intros [= <-]; left; reflexivity].
    cbn [mbind Res_bind]. intros He. right.
    destruct (get doc "career_timeline") as [ct|e1] eqn:Hget.
    + cbn [mbind Res_bind] in He.
      destruct ct as [| | | | |items|]; try (injection He as <-; reflexivity).
      unfold Array_map in He.
      destruct (map_res loadTimeline_item items) as [events|e2] eqn:Hmap; [discriminate|].
      injection He as <-.
      eapply (map_res_throws_only TypeError); [apply loadTimeline_item_throws_only|exact Hmap].
    + cbn [mbind Res_bind] in He. injection He as <-.
      eapply throws_only_get, Hget.
Qed.

(** X15.  [loadTimeline] returns one event per raw entry, in the same
    order; each event has exactly the keys [period], [event] and
    [achievements], with [period] and [event] as read from the raw entry
    ([undefined] when absent).  Other raw fields are dropped. *)
Theorem loadTimeline_preserves_events
    (timelineJson : string) (doc : JsVal) (items events : list JsVal) :
  JSON_parse timelineJson = Ok doc ->
  get doc "career_timeline" = Ok (JArr items) ->
  loadTimeline JSON_parse timelineJson = Ok (JArr events) ->
  length events = length items
  /\ forall i item,
       items !! i = Some item ->
       exists m,
         events !! i = Some (JObj m)
         /\ dom m = list_to_set ["period"; "event"; "achievements"]
         /\ m !! "period" = Some (field item "period")
         /\ m !! "event" = Some (field item "event").
Proof.
  intros Hparse Hget Hload. unfold loadTimeline in Hload.
  rewrite Hparse in Hload. cbn [mbind Res_bind] in Hload.
  rewrite Hget in Hload. cbn [mbind Res_bind] in Hload. unfold Array_map in Hload.
  destruct (map_res loadTimeline_item items) as [events'|e] eqn:Hmap; [|discriminate].
  injection Hload as <-. apply map_res_Forall2 in Hmap.
  split; [symmetry; eapply Forall2_length, Hmap|].
  intros i item Hi.
  destruct (Forall2_lookup_l _ _ _ _ _ Hmap Hi) as (ev & Hev & Hitem).
  assert (Hn : nullish item = false).
  { destruct (nullish item) eqn:Hn; [|reflexivity].
    rewrite (loadTimeline_item_nullish _ Hn) in Hitem. discriminate. }
  destruct (loadTimeline_item_shape item Hn) as (ach & Hshape).
  rewrite Hshape in Hitem. injection Hitem as <-.
  eexists. split; [exact Hev|]. split; [|split; reflexivity].
  unfold props. cbn [foldl]. rewrite !dom_insert_L, dom_empty_L. cbn [list_to_set].
  apply set_eq. intros k. rewrite !elem_of_union, !elem_of_singleton. tauto.
Qed.

(** X16.  A raw event whose [achievements] is truthy (any array, even an
    empty one) keeps it unchanged, whatever its [state]. *)
Theorem loadTimeline_keeps_achievements
    (timelineJson : string) (doc : JsVal) (items : list JsVal)
    (i : nat) (m : gmap string JsVal) (achievements : JsVal) :
  JSON_parse timelineJson = Ok doc ->
  get doc "career_timeline" = Ok (JArr items) ->
  Forall (fun item => nullish item = false) items ->
  items !! i = Some (JObj m) ->
  m !! "achievements" = Some achievements ->
  truthy achievements = true ->
  exists events ev,
    loadTimeline JSON_parse timelineJson = Ok (JArr events)
    /\ events !! i = Some ev
    /\ get ev "achievements" = Ok achievements.
Proof.
  intros Hparse Hget Hitems Hi Ha Ht.
  destruct (loadTimeline_event_at JSON_parse _ _ _ _ _ Hparse Hget Hitems Hi)
    as (events & ev & Hload & Hlen & Hev & Hitem).
  destruct (loadTimeline_item_obj m) as (ach & Hshape & Hach).
  rewrite Ha in Hach. simpl in Hach. rewrite Ht in Hach. subst ach.
  rewrite Hshape in Hitem. injection Hitem as <-.
  exists events. eexists. repeat split; [exact Hload | exact Hev |].
  apply get_achievements.
Qed.
End TimelineMoreProps.

Lemma loadTimeline_succeeds_iff_witness :
  is_ok (DataLoader.loadTimeline
           (Samples.parser (Samples.timeline_of Samples.event_with_state))
           "timeline.json") = true.
Proof.
  apply (proj1 (loadTimeline_succeeds_iff
                  (Samples.parser (Samples.timeline_of Samples.event_with_state))
                  "timeline.json")).
  exists (Samples.timeline_of Samples.event_with_state), [JObj Samples.event_with_state].
  split; [reflexivity|]. split; [reflexivity|]. repeat constructor.
Defined.

Lemma loadTimeline_preserves_events_witness :
  exists events,
    DataLoader.loadTimeline
      (Samples.parser (Samples.timeline_of Samples.event_empty_achievements))
      "timeline.json" = Ok (JArr events)
    /\ length events = 1%nat
    /\ forall i item,
         [JObj Samples.event_empty_achievements] !! i = Some item ->
         exists m,
           events !! i = Some (JObj m)
           /\ dom m = list_to_set ["period"; "event"; "achievements"]
           /\ m !! "period" = Some (field item "period")
           /\ m !! "event" = Some (field item "event").
Proof.
  eexists. split; [reflexivity|].
  apply (loadTimeline_preserves_events
           (Samples.parser (Samples.timeline_of Samples.event_empty_achievements))
           "timeline.json" (Samples.timeline_of Samples.event_empty_achievements)
           [JObj Samples.event_empty_achievements]);
    reflexivity.
Defined.

Lemma loadTimeline_keeps_achievements_witness :
  exists events ev,
    DataLoader.loadTimeline
      (Samples.parser (Samples.timeline_of Samples.event_empty_achievements))
      "timeline.json" = Ok (JArr events)
    /\ events !! 0%nat = Some ev
    /\ get ev "achievements" = Ok (JArr []).
Proof.
  apply (loadTimeline_keeps_achievements
           (Samples.parser (Samples.timeline_of Samples.event_empty_achievements))
           "timeline.json" (Samples.timeline_of Samples.event_empty_achievements)
           [JObj Samples.event_empty_achievements] 0 Samples.event_empty_achievements
           (JArr []));
    [reflexivity | reflexivity | repeat constructor | reflexivity
    | reflexivity | reflexivity].
Defined.

(* ================================================================== *)
(** * Properties of the timeline cards *)
(* ================================================================== *)

Section CardProps.
Import TimelineSection.

Lemma bullets_fmap_Bullet (l : list JsVal) : bullets (Bullet <$> l) = l.
Proof.
  unfold bullets. induction l as [|x l IH]; [reflexivity|].
  rewrite fmap_cons. cbn [omap list_omap]. rewrite IH. reflexivity.
Qed.

Lemma announced_fmap_Bullet (l : list JsVal) : announced (Bullet <$> l) = 0.
Proof.
  unfold announced. induction l as [|x l IH]; [reflexivity|].
  rewrite fmap_cons. cbn [foldr]. exact IH.
Qed.

(** X17.  The body of a timeline card accounts for every achievement of a
    non-empty list: the bullets shown are a prefix of the list, and their
    number plus the number announced by the hint is the length of the
    list; the selected card shows the whole list, any other card exactly
    one bullet. *)
Theorem card_body_accounts_for_every_achievement
    (selectedEvent : option nat) (index : nat) (achievements : list JsVal) :
  achievements <> [] ->
  let body := card_body selectedEvent index achievements in
  bullets body `prefix_of` achievements
  /\ Z.of_nat (length (bullets body)) + announced body = Z.of_nat (length achievements)
  /\ (is_selected selectedEvent index = true -> bullets body = achievements)
  /\ (is_selected selectedEvent index = false -> length (bullets body) = 1%nat).
Proof.
  intros Hne body. subst body. unfold card_body.
  destruct achievements as [|a rest]; [contradiction|].
  destruct (is_selected selectedEvent index); cbn [negb andb].
  - rewrite app_nil_r.
    rewrite bullets_fmap_Bullet, announced_fmap_Bullet.
    split; [reflexivity|]. split; [lia|]. split; [reflexivity | discriminate].
  - cbn [lookup list_lookup default].
    destruct (1 <? Z.of_nat (length (a :: rest))) eqn:Hlen;
      cbn [app bullets omap list_omap announced foldr length].
    + split; [exists rest; reflexivity|].
      split; [lia|].
      split; [discriminate | reflexivity].
    + apply Z.ltb_ge in Hlen. destruct rest as [|b rest]; [|rewrite !length_cons in Hlen; lia].
      split; [exists []; reflexivity|].
      split; [reflexivity|].
      split; [discriminate | reflexivity].
Qed.
End CardProps.

Lemma card_body_accounts_for_every_achievement_witness :
  let achievements := [JStr "EKS"; JStr "GitOps"; JStr "OIDC"] in
  let body := TimelineSection.card_body (Some 1%nat) 0 achievements in
  TimelineSection.bullets body `prefix_of` achievements
  /\ Z.of_nat (length (TimelineSection.bullets body)) + TimelineSection.announced body
     = Z.of_nat (length achievements)
  /\ (TimelineSection.is_selected (Some 1%nat) 0 = true ->
      TimelineSection.bullets body = achievements)
  /\ (TimelineSection.is_selected (Some 1%nat) 0 = false ->
      length (TimelineSection.bullets body) = 1%nat).
Proof.
  apply (card_body_accounts_for_every_achievement (Some 1%nat) 0
           [JStr "EKS"; JStr "GitOps"; JStr "OIDC"]).
  discriminate.
Defined.

(** A collapsed card of three achievements, and the cards of an event
    without achievements. *)
Example card_body_shapes :
  TimelineSection.card_body None 0 [JStr "EKS"; JStr "GitOps"; JStr "OIDC"]
    = [TimelineSection.Bullet (JStr "EKS"); TimelineSection.MoreHint 2]
  /\ TimelineSection.card_body None 0 [] = [TimelineSection.Bullet JUndef]
  /\ TimelineSection.card_body (Some 0%nat) 0 [] = [].
Proof. repeat split; reflexivity. Qed.

(* ================================================================== *)
(** * Agreement of the lines-of-code labels *)
(* ================================================================== *)

Section LabelProps.
Import HeroSection.


End LabelProps.

